(** * Media moderation handlers: image and video upload pipelines

    A shallow embedding of [functions/src/imageService.ts] and
    [functions/src/videoService.ts].  Both files export one storage
    trigger ([processImages], [transcodeVideo]) and keep one private
    detection helper ([imageSafeSearchDetection],
    [videoSafeSearchDetection]).

    The handlers are straight-line [async] code: every step is an awaited
    call to a collaborator (classifier, bucket, local file system, signer,
    HTTP client).  They are embedded as finite programs over a signature
    of requests, and run against an explicit model of the bucket and of
    the temporary directory. *)

From Stdlib Require Import ZArith Ascii String List.
From stdpp Require Import base tactics option list gmap strings.

Local Open Scope Z_scope.

(** ** Errors and promises *)

(** What a rejected promise or a failing property access carries. *)
Inductive error : Type :=
| TypeError (msg : string)
| ApiError (code : Z) (msg : string)
| SystemError (code : string) (path : string).

(** A settled promise. *)
Inductive settled (X : Type) : Type :=
| Resolved (x : X)
| Rejected (e : error).
Arguments Resolved {X} x.
Arguments Rejected {X} e.

(** How a function body ends. *)
Inductive outcome (A : Type) : Type :=
| Returned (a : A)
| Thrown (e : error).
Arguments Returned {A} a.
Arguments Thrown {A} e.

(** The handlers' only return value, [null]. *)
Variant jsnull : Set := null.

(** ** Data carried by the trigger and by the classifiers *)

(** The fields of [functions.storage.ObjectMetadata] the handlers read;
    [name] and [contentType] are optional in the platform's type. *)
Record ObjectMetadata : Type := {
  name : option string;
  bucket : string;
  contentType : option string;
}.

(** [ISafeSearchAnnotation]: enum fields arrive as their names, which is
    what the handler compares against. *)
Record SafeSearchAnnotation : Type := {
  adult : option string;
  violence : option string;
}.

Record AnnotateImageResponse : Type := {
  safeSearchAnnotation : option SafeSearchAnnotation;
}.

(** [IExplicitContentFrame]: the handler reads the enum field
    [as number]. *)
Record ExplicitContentFrame : Type := {
  pornographyLikelihood : option Z;
}.

Record ExplicitContentAnnotation : Type := {
  frames : option (list ExplicitContentFrame);
}.

Record VideoAnnotationResults : Type := {
  explicitAnnotation : option ExplicitContentAnnotation;
}.

Record AnnotateVideoResponse : Type := {
  annotationResults : option (list VideoAnnotationResults);
}.

(** ** JavaScript operators used by the decision rules *)

(** [v === lit] for a possibly absent string [v]. *)
Definition strict_eq (v : option string) (lit : string) : bool :=
  match v with
  | Some s => String.eqb s lit
  | None => false
  end.

(** [!!v] for a possibly absent number. *)
Definition truthy (v : option Z) : bool :=
  match v with
  | Some n => negb (n =? 0)
  | None => false
  end.

(** [arr[v]] for an array of strings and a possibly absent number. *)
Definition index (arr : list string) (v : option Z) : option string :=
  match v with
  | Some n => if n <? 0 then None else nth_error arr (Z.to_nat n)
  | None => None
  end.

(** [s.startsWith(marker)] behind [?.], then negated: [!s?.startsWith(m)]. *)
Definition not_startsWith (s : option string) (marker : string) : bool :=
  match s with
  | Some s => negb (String.prefix marker s)
  | None => true
  end.

(** [!filePath]: absent, or the empty string. *)
Definition falsy (s : option string) : bool :=
  match s with
  | Some EmptyString => true
  | Some _ => false
  | None => true
  end.

(** ** Constants of the two services *)

(** Human-readable likelihoods. *)
Definition likelihoods : list string :=
  ["UNKNOWN"; "VERY_UNLIKELY"; "UNLIKELY"; "POSSIBLE"; "LIKELY"; "VERY_LIKELY"]%string.

Definition REPLACEMENT_VIDEO_FILE_PATH : string := "annotate.mp4".
Definition REPLACEMENT_IMAGE_FILE_PATH : string := "prohibited.png".

(** ** Decision rules *)

(** The tail of [imageSafeSearchDetection], after the classifier
    responded with [result]. *)
Definition imageVerdict (result : AnnotateImageResponse) : bool :=
  let detections := safeSearchAnnotation result in
  let adultContent :=
    strict_eq (detections ≫= adult) "POSSIBLE" ||
    strict_eq (detections ≫= adult) "LIKELY" ||
    strict_eq (detections ≫= adult) "VERY_LIKELY" in
  let violenceContent :=
    strict_eq (detections ≫= violence) "POSSIBLE" ||
    strict_eq (detections ≫= violence) "LIKELY" ||
    strict_eq (detections ≫= violence) "VERY_LIKELY" in
  adultContent || violenceContent.

(** The right-hand side of the assignment in the [forEach] callback. *)
Definition frameVerdict (frame : ExplicitContentFrame) : bool :=
  (truthy (pornographyLikelihood frame) &&
     strict_eq (index likelihoods (pornographyLikelihood frame)) "POSSIBLE") ||
  (truthy (pornographyLikelihood frame) &&
     strict_eq (index likelihoods (pornographyLikelihood frame)) "LIKELY") ||
  (truthy (pornographyLikelihood frame) &&
     strict_eq (index likelihoods (pornographyLikelihood frame)) "VERY_LIKELY").

(** [frames.forEach((frame) => { isAdult = ... })]: the callback assigns
    the captured variable once per frame, in order. *)
Definition forEach_assign (fs : list ExplicitContentFrame) (isAdult : bool) : bool :=
  fold_left (fun _ frame => frameVerdict frame) fs isAdult.

(** The tail of [videoSafeSearchDetection], after the long-running
    operation resolved with [operationResult].  Reading a property of
    [explicitContentResults[0]] throws when the array is empty. *)
Definition videoVerdict (operationResult : AnnotateVideoResponse) : outcome bool :=
  let explicitContentResults := annotationResults operationResult in
  let isAdult := false in
  match explicitContentResults with
  | None => Returned isAdult
  | Some [] =>
      Thrown (TypeError "Cannot read properties of undefined (reading 'explicitAnnotation')")
  | Some (first :: _) =>
      let results := explicitAnnotation first in
      match results ≫= frames with
      | Some fs =>
          if (0 <? Z.of_nat (length fs))
          then Returned (forEach_assign fs isAdult)
          else Returned isAdult
      | None => Returned isAdult
      end
  end.

(** ** Collaborators *)

(** Node's [path] module and [os.tmpdir()], as far as the handlers use
    them.  [format name ext] stands for [path.format({ name, ext })]. *)
Record PathModule : Type := {
  tmpdir : string;
  join : string -> string -> string;
  dirname : string -> string;
  basename : string -> string -> string;
  extname : string -> string;
  format : string -> string -> string;
}.

(** Deployment parameters and secrets, read with [.value()]. *)
Record Params : Type := {
  cloudflareApiToken : string;
  cloudflareAccountId : string;
  cloudflareBaseURL : string;
}.

(** The [data] object of the transcoding request. *)
Record StreamCopy : Type := {
  copy_url : string;
  meta_name : string;
  meta_path : string;
  meta_contentURI : string;
  meta_contentRef : string;
}.

Record AxiosRequestConfig : Type := {
  method : string;
  url : string;
  headers : list (string * string);
  data : StreamCopy;
}.

(** Every call a handler makes outside itself, with its arguments. *)
Inductive request : Type :=
| Log (args : list string)
| LogError (e : error)
| SafeSearchDetection (gcsUri : string)
| AnnotateVideo (inputUri : string) (features : list string)
| OperationPromise (operation : string)
| FileDelete (path : string)
| Mkdirp (dir : string)
| FileDownload (path destination : string)
| BucketUpload (localPath destination : string) (resumable : bool)
| Unlink (path : string)
| DateNow
| GetSignedUrl (path action : string) (expires : Z)
| Axios (config : AxiosRequestConfig).

(** What the caller gets back.  Awaited calls settle; the logger and the
    clock answer at once. *)
Definition response (r : request) : Type :=
  match r with
  | Log _ | LogError _ => unit
  | SafeSearchDetection _ => settled AnnotateImageResponse
  | AnnotateVideo _ _ => settled string
  | OperationPromise _ => settled AnnotateVideoResponse
  | FileDelete _ | Mkdirp _ | FileDownload _ _ | BucketUpload _ _ _ | Unlink _ =>
      settled unit
  | DateNow => Z
  | GetSignedUrl _ _ _ => settled string
  | Axios _ => settled unit
  end.

#[global] Instance error_eq_dec : EqDecision error.
Proof. solve_decision. Defined.
#[global] Instance StreamCopy_eq_dec : EqDecision StreamCopy.
Proof. solve_decision. Defined.
#[global] Instance AxiosRequestConfig_eq_dec : EqDecision AxiosRequestConfig.
Proof. solve_decision. Defined.
#[global] Instance request_eq_dec : EqDecision request.
Proof. solve_decision. Defined.

(** ** Programs *)

(** A handler body: it returns, throws, or makes a call and continues
    with the answer. *)
Inductive prog (A : Type) : Type :=
| Ret (a : A)
| Throw (e : error)
| Vis (r : request) (k : response r -> prog A).
Arguments Ret {A} a.
Arguments Throw {A} e.
Arguments Vis {A} r k.

Fixpoint bind {A B : Type} (p : prog A) (f : A -> prog B) : prog B :=
  match p with
  | Ret a => f a
  | Throw e => Throw e
  | Vis r k => Vis r (fun x => bind (k x) f)
  end.

#[global] Instance prog_ret : MRet prog := @Ret.
#[global] Instance prog_bind : MBind prog := fun A B f p => bind p f.

(** A call whose answer is used as it is. *)
Definition call (r : request) : prog (response r) := Vis r Ret.

(** [await promise]: a rejection is thrown at the [await]. *)
Definition await {X : Type} (promise : prog (settled X)) : prog X :=
  s ← promise;
  match s with
  | Resolved x => Ret x
  | Rejected e => Throw e
  end.

Definition of_outcome {A : Type} (o : outcome A) : prog A :=
  match o with
  | Returned a => Ret a
  | Thrown e => Throw e
  end.

(** [try { body } catch (error) { handler }]. *)
Fixpoint try_catch {A : Type} (body : prog A) (handler : error -> prog A) : prog A :=
  match body with
  | Ret a => Ret a
  | Throw e => handler e
  | Vis r k => Vis r (fun x => try_catch (k x) handler)
  end.

(** Type narrowing after [if (!filePath) return]. *)
Definition narrow (s : option string) : option string :=
  if falsy s then None else s.

(** ** The two services *)

Section Services.

Variable path : PathModule.
Variable params : Params.

(** Detect adult or violence content. *)
Definition imageSafeSearchDetection (gcsUri : string) : prog bool :=
  result ← await (call (SafeSearchDetection gcsUri));
  mret (imageVerdict result).

(** Detect adult content. *)
Definition videoSafeSearchDetection (gcsUri : string) : prog bool :=
  operation ← await (call (AnnotateVideo gcsUri ["EXPLICIT_CONTENT_DETECTION"%string]));
  operationResult ← await (call (OperationPromise operation));
  of_outcome (videoVerdict operationResult).

Definition gs_uri (obj : ObjectMetadata) (filePath : string) : string :=
  "gs://" +:+ bucket obj +:+ "/" +:+ filePath.

(** Process images uploaded to the bucket. *)
Definition processImages (obj : ObjectMetadata) : prog jsnull :=
  try_catch
    (match narrow (name obj) with
     | None =>
         call (Log ["Object not found"%string]);;
         mret null
     | Some filePath =>
         if not_startsWith (contentType obj) "image/" then
           call (Log ["Only format images"%string]);;
           mret null
         else
           isDetected ← imageSafeSearchDetection (gs_uri obj filePath);
           (if isDetected : bool then
              call (Log ["Adult or violent content detected"%string]);;
              await (call (FileDelete filePath));;
              let tempFilePath := join path (tmpdir path) filePath in
              let tempFileDir := dirname path tempFilePath in
              await (call (Mkdirp tempFileDir));;
              await (call (FileDownload REPLACEMENT_IMAGE_FILE_PATH tempFilePath));;
              call (Log ["The replacement file has been downloaded to: "%string;
                         tempFilePath]);;
              await (call (BucketUpload tempFilePath filePath true));;
              call (Log ["Uploaded the replacement file to: "%string; filePath]);;
              await (call (Unlink tempFilePath));;
              call (Log ["Unlinked the downloaded file from: "%string; tempFilePath]);;
              mret tt
            else mret tt);;
           call (Log ["Processing image finished"%string]);;
           mret null
     end)
    (fun error => call (LogError error);; Throw error).

(** A background triggered function to transcode videos. *)
Definition transcodeVideo (obj : ObjectMetadata) : prog jsnull :=
  try_catch
    (match narrow (name obj) with
     | None =>
         call (Log ["Object not found"%string]);;
         mret null
     | Some filePath =>
         if not_startsWith (contentType obj) "video/" then
           call (Log ["Only transcode videos"%string]);;
           mret null
         else
           isAdult ← videoSafeSearchDetection (gs_uri obj filePath);
           (if isAdult : bool then
              call (Log ["Adult or violent content detected"%string]);;
              await (call (FileDelete filePath));;
              let tempFilePath := join path (tmpdir path) filePath in
              let tempFileDir := dirname path tempFilePath in
              await (call (Mkdirp tempFileDir));;
              await (call (FileDownload REPLACEMENT_VIDEO_FILE_PATH tempFilePath));;
              call (Log ["The replacement file has been downloaded to: "%string;
                         tempFilePath]);;
              await (call (BucketUpload tempFilePath filePath true));;
              call (Log ["Uploaded the replacement file to: "%string; filePath]);;
              await (call (Unlink tempFilePath));;
              call (Log ["Unlinked the downloaded file from: "%string; tempFilePath]);;
              mret tt
            else
              let baseName := basename path filePath (extname path filePath) in
              let extName := extname path filePath in
              let fileName := format path baseName extName in
              now ← call DateNow;
              downloadURL ← await (call (GetSignedUrl filePath "read"
                                           (now + 1000 * 60 * 60)));
              let cloudflareBaseURLValue := cloudflareBaseURL params in
              let cloudflareAccountIdValue := cloudflareAccountId params in
              let cloudflareApiTokenValue := cloudflareApiToken params in
              await (call (Axios {|
                method := "POST";
                url := cloudflareBaseURLValue +:+ "/" +:+ cloudflareAccountIdValue
                         +:+ "/stream/copy";
                headers := [("Authorization", "Bearer " +:+ cloudflareApiTokenValue);
                            ("Content-Type", "application/json")]%string;
                data := {| copy_url := downloadURL;
                           meta_name := fileName;
                           meta_path := filePath;
                           meta_contentURI := downloadURL;
                           meta_contentRef := filePath |} |}));;
              mret tt);;
           call (Log ["Processing video finished"%string]);;
           mret null
     end)
    (fun error => call (LogError error);; Throw error).

End Services.

Arguments gs_uri : simpl never.
Arguments videoVerdict : simpl never.
Arguments imageVerdict : simpl never.

(** The two pipelines share one shape; these dispatchers name what
    differs between them. *)
Variant pipeline : Set := Images | Videos.

Definition trigger (path : PathModule) (params : Params) (k : pipeline)
  : ObjectMetadata -> prog jsnull :=
  match k with
  | Images => processImages path
  | Videos => transcodeVideo path params
  end.

Definition detection (k : pipeline) : string -> prog bool :=
  match k with
  | Images => imageSafeSearchDetection
  | Videos => videoSafeSearchDetection
  end.

Definition marker (k : pipeline) : string :=
  match k with
  | Images => "image/"
  | Videos => "video/"
  end.

Definition placeholder (k : pipeline) : string :=
  match k with
  | Images => REPLACEMENT_IMAGE_FILE_PATH
  | Videos => REPLACEMENT_VIDEO_FILE_PATH
  end.

(** ** Running a program *)

(** An implementation of the collaborators over some state. *)
Definition handler (S : Type) : Type := forall r : request, S -> response r * S.

(** The requests issued in order, how the body ended, and the final
    state. *)
Fixpoint interp {S A : Type} (h : handler S) (p : prog A) (s : S)
  : list request * outcome A * S :=
  match p with
  | Ret a => ([], Returned a, s)
  | Throw e => ([], Thrown e, s)
  | Vis r k =>
      let '(x, s1) := h r s in
      let '(tr, o, s2) := interp h (k x) s1 in
      (r :: tr, o, s2)
  end.

(** ** The bucket and the temporary directory *)

Abbreviation bytes := (list Byte.byte).

(** Objects of the bucket by path, and local files by path.  Local
    directories are not tracked: [mkdirp] changes nothing here. *)
Record world : Type := {
  objects : gmap string bytes;
  files : gmap string bytes;
}.

(** The services outside the bucket, and [outage], which makes a storage
    or file-system call fail for a reason of its own (network, quota,
    permissions). *)
Record services : Type := {
  clock : Z;
  safeSearch : string -> settled AnnotateImageResponse;
  startAnnotation : string -> list string -> settled string;
  operationResult : string -> settled AnnotateVideoResponse;
  signedUrl : string -> string -> Z -> settled string;
  streamCopy : AxiosRequestConfig -> settled unit;
  outage : request -> option error;
}.

(** [file(path).delete()]: removes the object; 404 when there is none. *)
Definition bucket_delete (p : string) (w : world) : settled unit * world :=
  match objects w !! p with
  | Some _ => (Resolved tt, {| objects := delete p (objects w); files := files w |})
  | None => (Rejected (ApiError 404 ("No such object: " +:+ p)), w)
  end.

(** [file(path).download({ destination })]: copies the object's bytes to
    a local file; 404 when there is none. *)
Definition bucket_download (p destination : string) (w : world) : settled unit * world :=
  match objects w !! p with
  | Some b => (Resolved tt, {| objects := objects w; files := <[destination := b]> (files w) |})
  | None => (Rejected (ApiError 404 ("No such object: " +:+ p)), w)
  end.

(** [bucket.upload(localPath, { destination })]: writes the local file's
    bytes at [destination], replacing what is there. *)
Definition bucket_upload (localPath destination : string) (w : world) : settled unit * world :=
  match files w !! localPath with
  | Some b => (Resolved tt, {| objects := <[destination := b]> (objects w); files := files w |})
  | None => (Rejected (SystemError "ENOENT" localPath), w)
  end.

(** [fs.unlink(path)]. *)
Definition fs_unlink (p : string) (w : world) : settled unit * world :=
  match files w !! p with
  | Some _ => (Resolved tt, {| objects := objects w; files := delete p (files w) |})
  | None => (Rejected (SystemError "ENOENT" p), w)
  end.

(** A storage or file-system call under a possible outage: a call that
    fails leaves everything as it was. *)
Definition unless_outage {X : Type} (sv : services) (r : request)
    (op : world -> settled X * world) (w : world) : settled X * world :=
  match outage sv r with
  | Some e => (Rejected e, w)
  | None => op w
  end.

Definition perform (sv : services) : handler world :=
  fun r =>
    match r return world -> response r * world with
    | Log _ | LogError _ => fun w => (tt, w)
    | SafeSearchDetection gcsUri => fun w => (safeSearch sv gcsUri, w)
    | AnnotateVideo inputUri features => fun w => (startAnnotation sv inputUri features, w)
    | OperationPromise operation => fun w => (operationResult sv operation, w)
    | FileDelete p => unless_outage sv (FileDelete p) (bucket_delete p)
    | Mkdirp dir => unless_outage sv (Mkdirp dir) (fun w => (Resolved tt, w))
    | FileDownload p destination =>
        unless_outage sv (FileDownload p destination) (bucket_download p destination)
    | BucketUpload localPath destination resumable =>
        unless_outage sv (BucketUpload localPath destination resumable)
          (bucket_upload localPath destination)
    | Unlink p => unless_outage sv (Unlink p) (fs_unlink p)
    | DateNow => fun w => (clock sv, w)
    | GetSignedUrl p action expires => fun w => (signedUrl sv p action expires, w)
    | Axios config => fun w => (streamCopy sv config, w)
    end.

Definition run {A : Type} (sv : services) (p : prog A) (w : world)
  : list request * outcome A * world :=
  interp (perform sv) p w.

(** ** Reading a trace *)

Definition is_log (r : request) : bool :=
  match r with
  | Log _ | LogError _ => true
  | _ => false
  end.

(** The trace without the log lines. *)
Definition calls (tr : list request) : list request :=
  List.filter (fun r => negb (is_log r)) tr.

(** Requests that change the bucket. *)
Definition mutates_bucket (r : request) : bool :=
  match r with
  | FileDelete _ | BucketUpload _ _ _ => true
  | _ => false
  end.

Definition is_axios (r : request) : bool :=
  match r with
  | Axios _ => true
  | _ => false
  end.

Definition is_unlink (r : request) : bool :=
  match r with
  | Unlink _ => true
  | _ => false
  end.

(** ** A model of Node's [path] for plain object paths

    Object paths have the form [publishes/{station}/{publishId}/{file}]:
    relative, no [.] or [..] segment, no doubled or trailing slash.  On
    such paths the POSIX functions reduce to cutting at the last slash
    and at the last dot. *)
Module Posix.

(** [s] cut at its last [sep]: what is before, and what is after. *)
Fixpoint split_last (sep : ascii) (s : string) : option (string * string) :=
  match s with
  | EmptyString => None
  | String c rest =>
      match split_last sep rest with
      | Some (before, after) => Some (String c before, after)
      | None => if Ascii.eqb c sep then Some (EmptyString, rest) else None
      end
  end.

Definition last_segment (p : string) : string :=
  match split_last "/" p with
  | Some (_, after) => after
  | None => p
  end.

Definition dirname (p : string) : string :=
  match split_last "/" p with
  | Some (EmptyString, _) => "/"
  | Some (before, _) => before
  | None => "."
  end.

Definition extname (p : string) : string :=
  match split_last "." (last_segment p) with
  | Some (EmptyString, _) => ""
  | Some (_, after) => String "." after
  | None => ""
  end.

Definition basename (p ext : string) : string :=
  let b := last_segment p in
  let n := (String.length b - String.length ext)%nat in
  if negb (String.eqb ext "") && negb (String.eqb b ext)
     && String.eqb (String.substring n (String.length ext) b) ext
  then String.substring 0 n b
  else b.

Definition join (a b : string) : string := a +:+ "/" +:+ b.

Definition format (name ext : string) : string := name +:+ ext.

Definition module : PathModule :=
  Build_PathModule "/tmp" join dirname basename extname format.

End Posix.

(** ** The steps of a handler, by name

    Both handlers have the shape guard, detect, branch, log.  The two
    branches and the closing steps are named here; [trigger_passed]
    below shows that the handlers are made of exactly these. *)

(** The body of [if (isDetected)] and of [if (isAdult)]. *)
Definition replacement (path : PathModule) (k : pipeline) (filePath : string) : prog unit :=
  call (Log ["Adult or violent content detected"%string]);;
  await (call (FileDelete filePath));;
  let tempFilePath := join path (tmpdir path) filePath in
  let tempFileDir := dirname path tempFilePath in
  await (call (Mkdirp tempFileDir));;
  await (call (FileDownload (placeholder k) tempFilePath));;
  call (Log ["The replacement file has been downloaded to: "%string; tempFilePath]);;
  await (call (BucketUpload tempFilePath filePath true));;
  call (Log ["Uploaded the replacement file to: "%string; filePath]);;
  await (call (Unlink tempFilePath));;
  call (Log ["Unlinked the downloaded file from: "%string; tempFilePath]);;
  mret tt.

(** The request sent to the transcoding service for [filePath], once the
    signer answered [downloadURL]. *)
Definition copy_request (path : PathModule) (params : Params)
    (filePath downloadURL : string) : AxiosRequestConfig :=
  {| method := "POST";
     url := cloudflareBaseURL params +:+ "/" +:+ cloudflareAccountId params
              +:+ "/stream/copy";
     headers := [("Authorization", "Bearer " +:+ cloudflareApiToken params);
                 ("Content-Type", "application/json")]%string;
     data := {| copy_url := downloadURL;
                meta_name := format path (basename path filePath (extname path filePath))
                               (extname path filePath);
                meta_path := filePath;
                meta_contentURI := downloadURL;
                meta_contentRef := filePath |} |}.

(** The [else] branch: nothing for images, the transcoding request for
    videos. *)
Definition forward (path : PathModule) (params : Params) (k : pipeline)
    (filePath : string) : prog unit :=
  match k with
  | Images => mret tt
  | Videos =>
      now ← call DateNow;
      downloadURL ← await (call (GetSignedUrl filePath "read" (now + 1000 * 60 * 60)));
      await (call (Axios (copy_request path params filePath downloadURL)));;
      mret tt
  end.

Definition finished (k : pipeline) : string :=
  match k with
  | Images => "Processing image finished"
  | Videos => "Processing video finished"
  end.

(** What a handler does with an object that passed the guard. *)
Definition moderate (path : PathModule) (params : Params) (k : pipeline)
    (obj : ObjectMetadata) (filePath : string) : prog jsnull :=
  flagged ← detection k (gs_uri obj filePath);
  (if flagged : bool then replacement path k filePath
   else forward path params k filePath);;
  call (Log [finished k]);;
  mret null.

(** The [catch] clause. *)
Definition rethrow (error : error) : prog jsnull :=
  call (LogError error);; Throw error.

(** The local file the placeholder is downloaded to. *)
Definition tempFilePath (path : PathModule) (filePath : string) : string :=
  join path (tmpdir path) filePath.

(** The classifier's part of a run: the detection helper never touches
    the bucket or the disk, so it is run on empty ones. *)
Definition detect (sv : services) (k : pipeline) (gcsUri : string)
  : list request * outcome bool :=
  (run sv (detection k gcsUri) {| objects := ∅; files := ∅ |}).1.

Definition verdict (sv : services) (k : pipeline) (gcsUri : string) : outcome bool :=
  (detect sv k gcsUri).2.

(** The guard lets [obj] through, with [filePath] as its path. *)
Definition passes_guard (k : pipeline) (obj : ObjectMetadata) (filePath : string) : Prop :=
  narrow (name obj) = Some filePath ∧
  not_startsWith (contentType obj) (marker k) = false.

(** The parts of a run. *)
Definition trace {S A : Type} (x : list request * outcome A * S) : list request := x.1.1.
Definition ending {S A : Type} (x : list request * outcome A * S) : outcome A := x.1.2.
Definition final {S A : Type} (x : list request * outcome A * S) : S := x.2.

(** ** Likelihood levels, as the specification groups them *)

(** The levels that flag content, and the levels that do not, for a
    field that carries the level's name. *)
Definition flagging (level : option string) : Prop :=
  level = Some "POSSIBLE"%string ∨ level = Some "LIKELY"%string ∨
  level = Some "VERY_LIKELY"%string.

Definition sparing (level : option string) : Prop :=
  level = Some "UNKNOWN"%string ∨ level = Some "VERY_UNLIKELY"%string ∨
  level = Some "UNLIKELY"%string.

Definition adult_level (result : AnnotateImageResponse) : option string :=
  safeSearchAnnotation result ≫= adult.

Definition violence_level (result : AnnotateImageResponse) : option string :=
  safeSearchAnnotation result ≫= violence.

(** The same for a frame, whose field carries the level's number. *)
Definition frame_flagging (frame : ExplicitContentFrame) : Prop :=
  flagging (index likelihoods (pornographyLikelihood frame)).

(** A classification response made of one annotation result with the
    given frames. *)
Definition response_of_frames (fs : list ExplicitContentFrame) : AnnotateVideoResponse :=
  {| annotationResults := Some [{| explicitAnnotation := Some {| frames := Some fs |} |}] |}.

(** ** Sample inputs *)
Module Sample.

Definition params : Params := {|
  cloudflareApiToken := "s3cr3t";
  cloudflareAccountId := "acct42";
  cloudflareBaseURL := "https://api.cloudflare.com/client/v4/accounts";
|}.

Definition prohibited_png : bytes := [Byte.x89; Byte.x50; Byte.x4e; Byte.x47].
Definition annotate_mp4 : bytes := [Byte.x00; Byte.x00; Byte.x00; Byte.x18].
Definition cat_png : bytes := [Byte.x89; Byte.x50; Byte.x01].
Definition clip_mp4 : bytes := [Byte.x00; Byte.x00; Byte.x02].

(** A bucket with both placeholders and two uploads, and an empty
    temporary directory. *)
Definition uploaded : world := {|
  objects := list_to_map [("prohibited.png", prohibited_png);
                          ("annotate.mp4", annotate_mp4);
                          ("publishes/st/1/cat.png", cat_png);
                          ("publishes/st/1/clip.mp4", clip_mp4)]%string;
  files := ∅;
|}.

Definition image_event : ObjectMetadata :=
  {| name := Some "publishes/st/1/cat.png"%string; bucket := "raw";
     contentType := Some "image/png"%string |}.

Definition video_event : ObjectMetadata :=
  {| name := Some "publishes/st/1/clip.mp4"%string; bucket := "raw";
     contentType := Some "video/mp4"%string |}.

(** An upload without a declared content type. *)
Definition untyped_event : ObjectMetadata :=
  {| name := Some "publishes/st/1/notes.txt"%string; bucket := "raw";
     contentType := None |}.

(** The image placeholder itself, uploaded as an image. *)
Definition placeholder_event : ObjectMetadata :=
  {| name := Some "prohibited.png"%string; bucket := "raw";
     contentType := Some "image/png"%string |}.

Definition image_levels (a v : string) : AnnotateImageResponse :=
  {| safeSearchAnnotation := Some {| adult := Some a; violence := Some v |} |}.

Definition frames_of (levels : list Z) : list ExplicitContentFrame :=
  List.map (fun n => {| pornographyLikelihood := Some n |}) levels.

Definition no_outage : request -> option error := fun _ => None.

Definition upload_down : request -> option error :=
  fun r =>
    match r with
    | BucketUpload _ _ _ => Some (ApiError 503 "Service Unavailable")
    | _ => None
    end.

(** Services that classify every image as [image] and every video as
    [video], sign every URL and accept every transcoding request. *)
Definition services_of (image : AnnotateImageResponse) (video : AnnotateVideoResponse)
    (down : request -> option error) : services := {|
  clock := 1700000000000;
  safeSearch := fun _ => Resolved image;
  startAnnotation := fun _ _ => Resolved "operations/1"%string;
  operationResult := fun _ => Resolved video;
  signedUrl := fun p _ _ => Resolved ("https://storage.googleapis.com/raw/" +:+ p);
  streamCopy := fun _ => Resolved tt;
  outage := down;
|}.


End Sample.

(** ** Footprints *)

(** Every request the program can issue, whatever the answers, satisfies
    [P]. *)
Fixpoint issues_only {A : Type} (P : request -> Prop) (p : prog A) : Prop :=
  match p with
  | Ret _ | Throw _ => True
  | Vis r k => P r ∧ ∀ x, issues_only P (k x)
  end.

(** Requests that neither delete nor overwrite the object at [q]. *)
Definition spares (q : string) (r : request) : Prop :=
  match r with
  | FileDelete p => p ≠ q
  | BucketUpload _ destination _ => destination ≠ q
  | _ => True
  end.

(** Requests that delete, read or write an object of the bucket. *)
Definition touches_storage (r : request) : bool :=
  match r with
  | FileDelete _ | FileDownload _ _ | BucketUpload _ _ _ => true
  | _ => false
  end.

(** Requests to a classifier. *)
Definition classifier_call (r : request) : bool :=
  match r with
  | SafeSearchDetection _ | AnnotateVideo _ _ | OperationPromise _ => true
  | _ => false
  end.

(** Requests that neither write nor remove the local file at [q]. *)
Definition spares_file (q : string) (r : request) : Prop :=
  match r with
  | FileDownload _ destination => destination ≠ q
  | Unlink p => p ≠ q
  | _ => True
  end.

Definition is_log_error (r : request) : bool :=
  match r with
  | LogError _ => true
  | _ => false
  end.

(** Requests of the transcoding branch: the clock, the signer, the
    POST. *)
Definition transcoding_call (r : request) : bool :=
  match r with
  | DateNow | GetSignedUrl _ _ _ | Axios _ => true
  | _ => false
  end.

(** The awaited calls of the replacement, in the order of the source. *)
Definition replacement_steps (path : PathModule) (k : pipeline) (filePath : string)
  : list request :=
  [FileDelete filePath;
   Mkdirp (dirname path (tempFilePath path filePath));
   FileDownload (placeholder k) (tempFilePath path filePath);
   BucketUpload (tempFilePath path filePath) filePath true;
   Unlink (tempFilePath path filePath)].


(** The error an answer carries, when the call was rejected. *)
Definition settled_error {X : Type} (x : settled X) : option error :=
  match x with
  | Resolved _ => None
  | Rejected e => Some e
  end.

Definition rejection (r : request) : response r -> option error :=
  match r return response r -> option error with
  | Log _ | LogError _ | DateNow => fun _ => None
  | SafeSearchDetection _ => settled_error
  | AnnotateVideo _ _ => settled_error
  | OperationPromise _ => settled_error
  | FileDelete _ | Mkdirp _ | FileDownload _ _ | BucketUpload _ _ _ | Unlink _ =>
      settled_error
  | GetSignedUrl _ _ _ => settled_error
  | Axios _ => settled_error
  end.

(** Awaiting the calls of [steps] one after the other from world [w]:
    a call is made only once the one before it resolved, and the first
    rejection ends the sequence.  Gives the calls made, the rejection if
    there was one, and the world at the end. *)
Fixpoint await_each (sv : services) (steps : list request) (w : world)
  : list request * option error * world :=
  match steps with
  | [] => ([], None, w)
  | r :: rest =>
      let '(x, w1) := perform sv r w in
      match rejection r x with
      | Some e => ([r], Some e, w1)
      | None =>
          let '(tr, e, w2) := await_each sv rest w1 in
          (r :: tr, e, w2)
      end
  end.

(** ** Proof steps *)

(** Steps through the awaited storage and file-system calls of a run,
    splitting on whether each one fails. *)
Ltac settle :=
  repeat (cbn;
    match goal with
    | |- context [unless_outage ?sv ?r _ _] =>
        unfold unless_outage at 1; destruct (outage sv r) eqn:?
    | |- context [bucket_delete ?p ?w] =>
        unfold bucket_delete at 1; destruct (objects w !! p) eqn:?
    | |- context [bucket_download ?p _ ?w] =>
        unfold bucket_download at 1; destruct (objects w !! p) eqn:?
    | |- context [bucket_upload ?l _ ?w] =>
        unfold bucket_upload at 1; destruct (files w !! l) eqn:?
    | |- context [fs_unlink ?p ?w] =>
        unfold fs_unlink at 1; destruct (files w !! p) eqn:?
    end);
  cbn.

(** Walks through a program, answer by answer, to check the requests
    it can issue. *)
Ltac footprint :=
  repeat (cbn;
    match goal with
    | |- True => exact I
    | |- _ ≠ _ => assumption
    | |- _ = _ => reflexivity
    | |- _ ∧ _ => split
    | |- ∀ x : settled _, _ => intros [? | ?]
    | |- ∀ _, _ => intros ?
    end).

(** Steps through two computations over the same calls at once,
    splitting on each answer where both meet it. *)
Ltac lockstep :=
  repeat first
    [ progress cbn
    | rewrite lookup_insert_eq
    | match goal with
      | |- context [unless_outage ?sv ?r _ _] =>
          unfold unless_outage; destruct (outage sv r) eqn:?
      | |- context [bucket_delete _ _] => unfold bucket_delete
      | |- context [bucket_download _ _ _] => unfold bucket_download
      | |- context [bucket_upload _ _ _] => unfold bucket_upload
      | |- context [fs_unlink _ _] => unfold fs_unlink
      | |- context [match @lookup string bytes _ _ ?i ?m with _ => _ end] =>
          destruct (m !! i) eqn:?
      end ].

(** * Properties *)

(** ** Running sequences *)

Lemma interp_bind {S A B : Type} (h : handler S) (p : prog A) (f : A -> prog B) (s : S) :
  interp h (p ≫= f) s =
  match interp h p s with
  | (tr, Returned a, s1) =>
      let '(tr', o, s2) := interp h (f a) s1 in (tr ++ tr', o, s2)
  | (tr, Thrown e, s1) => (tr, Thrown e, s1)
  end.
Proof.
  revert s. induction p as [a | e | r k IH]; intros s.
  - cbn. by destruct (interp h (f a) s) as [[tr o] s2].
  - done.
  - cbn. destruct (h r s) as [x s1].
    change (interp h (bind (k x) f) s1) with (interp h (k x ≫= f) s1).
    rewrite IH.
    destruct (interp h (k x) s1) as [[tr [a | e]] s2]; [|done].
    by destruct (interp h (f a) s2) as [[tr' o] s3].
Qed.

Lemma interp_try_catch {S A : Type} (h : handler S) (p : prog A)
    (c : error -> prog A) (s : S) :
  interp h (try_catch p c) s =
  match interp h p s with
  | (tr, Returned a, s1) => (tr, Returned a, s1)
  | (tr, Thrown e, s1) =>
      let '(tr', o, s2) := interp h (c e) s1 in (tr ++ tr', o, s2)
  end.
Proof.
  revert s. induction p as [a | e | r k IH]; intros s.
  - done.
  - cbn. by destruct (interp h (c e) s) as [[tr o] s2].
  - cbn. destruct (h r s) as [x s1]. rewrite IH.
    destruct (interp h (k x) s1) as [[tr [a | e]] s2]; [done|].
    by destruct (interp h (c e) s2) as [[tr' o] s3].
Qed.

Lemma not_startsWith_true (ct : option string) (m : string) :
  (∀ s, ct = Some s → String.prefix m s = false) → not_startsWith ct m = true.
Proof.
  intros H. destruct ct as [s|]; [|done]. cbn. by rewrite (H s eq_refl).
Qed.

Lemma issues_only_bind {A B : Type} (P : request -> Prop) (p : prog A) (f : A -> prog B) :
  issues_only P p → (∀ a, issues_only P (f a)) → issues_only P (p ≫= f).
Proof.
  intros Hp Hf. induction p as [a | e | r k IH]; cbn in *; [done | done |].
  destruct Hp as [Hr Hk]. split; [done|]. intros x. by apply IH.
Qed.

Lemma issues_only_try_catch {A : Type} (P : request -> Prop) (p : prog A)
    (c : error -> prog A) :
  issues_only P p → (∀ e, issues_only P (c e)) → issues_only P (try_catch p c).
Proof.
  intros Hp Hc. induction p as [a | e | r k IH]; cbn in *; [done | done |].
  destruct Hp as [Hr Hk]. split; [done|]. intros x. by apply IH.
Qed.

Lemma issues_only_interp {S A : Type} (P : request -> Prop) (h : handler S)
    (p : prog A) (s : S) :
  issues_only P p → Forall P (interp h p s).1.1.
Proof.
  revert s. induction p as [a | e | r k IH]; intros s Hp; cbn.
  - constructor.
  - constructor.
  - destruct Hp as [Hr Hk]. destruct (h r s) as [x s1].
    specialize (IH x s1 (Hk x)).
    destruct (interp h (k x) s1) as [[tr o] s2]. by constructor.
Qed.

Lemma issues_only_mono {A : Type} (P Q : request -> Prop) (p : prog A) :
  issues_only P p → (∀ r, P r → Q r) → issues_only Q p.
Proof.
  intros Hp HPQ. induction p as [a | e | r k IH]; cbn in *; [done | done |].
  destruct Hp as [Hr Hk]. split; [by apply HPQ|]. intros x. by apply IH.
Qed.

(** A state property kept by every request the program can issue is
    kept by the run. *)
Lemma interp_invariant {S A : Type} (P : request -> Prop) (I : S -> Prop)
    (h : handler S) (p : prog A) (s : S) :
  issues_only P p →
  (∀ r s0, P r → I s0 → I (h r s0).2) →
  I s → I (interp h p s).2.
Proof.
  intros Hp Hstep. revert s Hp.
  induction p as [a | e | r k IH]; intros s Hp Hs; cbn; [done | done |].
  destruct Hp as [Hr Hk]. specialize (Hstep r s Hr Hs) as Hs1.
  destruct (h r s) as [x s1]. specialize (IH x s1 (Hk x) Hs1).
  by destruct (interp h (k x) s1) as [[tr o] s2].
Qed.

(** ** Decision rules *)

Lemma strict_eq_true (v : option string) (lit : string) :
  strict_eq v lit = true ↔ v = Some lit.
Proof.
  destruct v as [s|]; cbn; [|done].
  rewrite String.eqb_eq. split; congruence.
Qed.

Lemma imageVerdict_spec (result : AnnotateImageResponse) :
  imageVerdict result = true ↔
  flagging (adult_level result) ∨ flagging (violence_level result).
Proof.
  unfold imageVerdict, flagging, adult_level, violence_level.
  rewrite !orb_true_iff, !strict_eq_true. tauto.
Qed.

Lemma sparing_not_flagging (level : option string) : sparing level → ¬ flagging level.
Proof. intros [-> | [-> | ->]] [? | [? | ?]]; discriminate. Qed.

(** What the callback computes: the frame's level, read as a number, is
    one of the three flagging ones. *)
Lemma frameVerdict_spec (frame : ExplicitContentFrame) :
  frameVerdict frame = true ↔ frame_flagging frame.
Proof.
  unfold frameVerdict, frame_flagging, flagging.
  rewrite !orb_true_iff, !andb_true_iff, !strict_eq_true.
  destruct (pornographyLikelihood frame) as [n|]; cbn; [|intuition discriminate].
  destruct (decide (n = 0)) as [-> | Hn]; [cbn; intuition discriminate|].
  assert (negb (n =? 0) = true) as -> by (apply negb_true_iff; lia).
  tauto.
Qed.

(** The assignment keeps only what the callback computed last. *)
Lemma forEach_assign_last (fs : list ExplicitContentFrame) (frame : ExplicitContentFrame)
    (isAdult : bool) :
  forEach_assign (fs ++ [frame]) isAdult = frameVerdict frame.
Proof. unfold forEach_assign. by rewrite fold_left_app. Qed.

Lemma videoVerdict_last (fs : list ExplicitContentFrame) (frame : ExplicitContentFrame) :
  videoVerdict (response_of_frames (fs ++ [frame])) = Returned (frameVerdict frame).
Proof.
  unfold videoVerdict, response_of_frames. cbn -[forEach_assign Z.ltb].
  rewrite forEach_assign_last.
  assert ((0 <? Z.of_nat (length (fs ++ [frame]))) = true) as ->; [|done].
  apply Z.ltb_lt. rewrite length_app. cbn. lia.
Qed.

(** The default: no annotation results at all, or a first result without
    frames, is not flagged. *)
Lemma videoVerdict_default (operationResult : AnnotateVideoResponse) :
  annotationResults operationResult = None ∨
  (∃ first rest, annotationResults operationResult = Some (first :: rest) ∧
     (explicitAnnotation first ≫= frames = None ∨
      explicitAnnotation first ≫= frames = Some [])) →
  videoVerdict operationResult = Returned false.
Proof.
  unfold videoVerdict.
  intros [-> | (first & rest & -> & [-> | ->])]; reflexivity.
Qed.

(** C1 (what the code does at the failing input): with a very-likely
    frame followed by an unlikely one, a frame of the response is
    flagging, yet the detection returns [false] and the handler sends
    the video to the transcoding service without touching the bucket. *)
Theorem flag_follows_last_frame :
  let fs := Sample.frames_of [5; 2] in
  let sv := Sample.services_of (Sample.image_levels "UNKNOWN" "UNKNOWN")
              (response_of_frames fs) Sample.no_outage in
  let r := run sv (transcodeVideo Posix.module Sample.params Sample.video_event)
             Sample.uploaded in
  Exists frame_flagging fs ∧
  videoVerdict (response_of_frames fs) = Returned false ∧
  existsb is_axios (trace r) = true ∧
  existsb mutates_bucket (trace r) = false ∧
  ending r = Returned null.
Proof.
  cbn zeta. split.
  - apply Exists_cons_hd. unfold frame_flagging, flagging. cbn. auto.
  - repeat split; vm_compute; reflexivity.
Qed.

(** C4 (what the code does at the failing input): when the response
    carries an empty list of annotation results, reading the first
    result throws a [TypeError]; the handler logs it and rethrows, and no
    transcoding request is sent. *)
Theorem empty_annotation_results_throw :
  let sv := Sample.services_of (Sample.image_levels "UNKNOWN" "UNKNOWN")
              {| annotationResults := Some [] |} Sample.no_outage in
  let r := run sv (transcodeVideo Posix.module Sample.params Sample.video_event)
             Sample.uploaded in
  videoVerdict {| annotationResults := Some [] |} =
    Thrown (TypeError "Cannot read properties of undefined (reading 'explicitAnnotation')") ∧
  ending r =
    Thrown (TypeError "Cannot read properties of undefined (reading 'explicitAnnotation')") ∧
  existsb is_axios (trace r) = false.
Proof. cbn zeta. repeat split; vm_compute; reflexivity. Qed.

Section Handlers.

Variable path : PathModule.
Variable params : Params.

(** A handler whose guard is passed is [moderate] under the [catch]. *)
Lemma trigger_passed (k : pipeline) (obj : ObjectMetadata) (filePath : string) :
  narrow (name obj) = Some filePath →
  not_startsWith (contentType obj) (marker k) = false →
  trigger path params k obj = try_catch (moderate path params k obj filePath) rethrow.
Proof.
  intros Hn Hct.
  destruct k; cbn [trigger marker] in *; unfold processImages, transcodeVideo;
    rewrite Hn, Hct; reflexivity.
Qed.

Lemma run_detection (sv : services) (k : pipeline) (uri : string) (w : world) :
  run sv (detection k uri) w = (detect sv k uri, w).
Proof.
  unfold detect, run.
  destruct k; cbn.
  - by destruct (safeSearch sv uri).
  - destruct (startAnnotation sv uri _) as [op|]; [|done]. cbn.
    destruct (operationResult sv op) as [res|]; [|done]. cbn.
    by destruct (videoVerdict res).
Qed.

(** The run of a handler whose guard is passed, against any
    collaborators: the detection, then the chosen branch, then the
    closing log line or the [catch] clause. *)
Lemma interp_trigger {S : Type} (h : handler S) (k : pipeline) (obj : ObjectMetadata)
    (filePath : string) (s : S) :
  passes_guard k obj filePath →
  interp h (trigger path params k obj) s =
  match interp h (detection k (gs_uri obj filePath)) s with
  | (tr0, Thrown e, s0) => (tr0 ++ [LogError e], Thrown e, (h (LogError e) s0).2)
  | (tr0, Returned flagged, s0) =>
      match interp h (if flagged then replacement path k filePath
                      else forward path params k filePath) s0 with
      | (tr1, Returned _, s1) =>
          (tr0 ++ tr1 ++ [Log [finished k]], Returned null, (h (Log [finished k]) s1).2)
      | (tr1, Thrown e, s1) =>
          (tr0 ++ tr1 ++ [LogError e], Thrown e, (h (LogError e) s1).2)
      end
  end.
Proof.
  intros [Hn Hct]. rewrite (trigger_passed k obj filePath Hn Hct).
  unfold moderate. rewrite interp_try_catch, interp_bind.
  destruct (interp h (detection k (gs_uri obj filePath)) s) as [[tr0 [flagged | e]] s0].
  - rewrite interp_bind.
    destruct (interp h _ s0) as [[tr1 [[] | e]] s1]; cbn.
    + by destruct (h (Log [finished k]) s1).
    + destruct (h (LogError e) s1). by rewrite <- app_assoc.
  - cbn. by destruct (h (LogError e) s0).
Qed.

Lemma run_trigger (sv : services) (k : pipeline) (obj : ObjectMetadata)
    (filePath : string) (w : world) :
  passes_guard k obj filePath →
  run sv (trigger path params k obj) w =
  match detect sv k (gs_uri obj filePath) with
  | (tr0, Thrown e) => (tr0 ++ [LogError e], Thrown e, w)
  | (tr0, Returned flagged) =>
      match run sv (if flagged then replacement path k filePath
                    else forward path params k filePath) w with
      | (tr1, Returned _, w1) => (tr0 ++ tr1 ++ [Log [finished k]], Returned null, w1)
      | (tr1, Thrown e, w1) => (tr0 ++ tr1 ++ [LogError e], Thrown e, w1)
      end
  end.
Proof.
  intros Hg. unfold run. rewrite (interp_trigger _ k obj filePath w Hg).
  fold (run sv (detection k (gs_uri obj filePath)) w). rewrite run_detection.
  destruct (detect sv k (gs_uri obj filePath)) as [tr0 [flagged | e]]; [|done].
  by destruct (interp (perform sv) _ w) as [[tr1 [[] | e]] w1].
Qed.

Lemma replacement_success (sv : services) (k : pipeline) (filePath : string)
    (w w' : world) (tr : list request) :
  run sv (replacement path k filePath) w = (tr, Returned tt, w') →
  calls tr = [FileDelete filePath; Mkdirp (dirname path (tempFilePath path filePath));
              FileDownload (placeholder k) (tempFilePath path filePath);
              BucketUpload (tempFilePath path filePath) filePath true;
              Unlink (tempFilePath path filePath)] ∧
  ∃ b, objects w !! placeholder k = Some b ∧
       objects w' = <[filePath := b]> (objects w) ∧
       files w' = delete (tempFilePath path filePath) (files w).
Proof.
  unfold run, replacement, tempFilePath.
  settle; intros [= <- <-].
  cbn in *.
  match goal with H : delete _ _ !! _ = Some _ |- _ =>
    apply lookup_delete_Some in H as [Hne Hph] end.
  rewrite lookup_insert_eq in *. simplify_eq.
  split; [done|]. eexists. split; [done|].
  by rewrite insert_delete_eq, delete_insert_eq.
Qed.

(** The guard either lets the object through or ends the handler after
    one log line. *)
Lemma guard_dichotomy (k : pipeline) (obj : ObjectMetadata) :
  (∃ filePath, passes_guard k obj filePath) ∨
  (∃ line, trigger path params k obj = Vis (Log [line]) (λ _, Ret null)).
Proof.
  destruct (narrow (name obj)) as [filePath|] eqn:Hn.
  - destruct (not_startsWith (contentType obj) (marker k)) eqn:Hct.
    + right. destruct k; cbn [trigger marker] in *;
        unfold processImages, transcodeVideo; rewrite Hn, Hct; eexists; reflexivity.
    + left. by exists filePath.
  - right. destruct k; cbn [trigger];
      unfold processImages, transcodeVideo; rewrite Hn; eexists; reflexivity.
Qed.

Lemma detect_image (sv : services) (uri : string) (result : AnnotateImageResponse) :
  safeSearch sv uri = Resolved result →
  detect sv Images uri = ([SafeSearchDetection uri], Returned (imageVerdict result)).
Proof. intros H. unfold detect, run. cbn. by rewrite H. Qed.

Lemma run_forward_videos (sv : services) (filePath : string) (w : world) :
  let expires := clock sv + 1000 * 60 * 60 in
  run sv (forward path params Videos filePath) w =
  match signedUrl sv filePath "read" expires with
  | Resolved downloadURL =>
      ([DateNow; GetSignedUrl filePath "read" expires;
        Axios (copy_request path params filePath downloadURL)],
       match streamCopy sv (copy_request path params filePath downloadURL) with
       | Resolved _ => Returned tt
       | Rejected e => Thrown e
       end, w)
  | Rejected e => ([DateNow; GetSignedUrl filePath "read" expires], Thrown e, w)
  end.
Proof.
  unfold run. cbn.
  destruct (signedUrl sv filePath "read" _) as [downloadURL | e]; [|done]. cbn.
  by destruct (streamCopy sv _).
Qed.

(** The replacement opens with its log line and the delete of the event
    path, whatever follows. *)
Lemma replacement_starts (sv : services) (k : pipeline) (filePath : string) (w : world) :
  ∃ rest, trace (run sv (replacement path k filePath) w) =
            Log ["Adult or violent content detected"%string] :: FileDelete filePath :: rest.
Proof.
  unfold run, replacement. cbn.
  destruct (unless_outage sv _ _ w) as [x w1].
  destruct (interp (perform sv) _ w1) as [[tr o] w2]. by eexists.
Qed.

(** C2: for every response of the image classifier to an object that
    passed the guard, the run of the image handler starts with the
    request to the classifier and then deletes the object at the event
    path exactly when the adult level or the violence level of the
    response is POSSIBLE, LIKELY or VERY_LIKELY: with such a response the
    delete is the first call after the classifier's, with any other
    response the run is the classifier's request and the closing log
    line, returns [null] and changes nothing.  In particular, when both
    levels are UNKNOWN, VERY_UNLIKELY or UNLIKELY, the run issues no
    delete and leaves the bucket as it was. *)
Theorem image_flag_rule (sv : services) (obj : ObjectMetadata) (filePath : string)
    (w : world) (result : AnnotateImageResponse) :
  passes_guard Images obj filePath →
  safeSearch sv (gs_uri obj filePath) = Resolved result →
  (∃ rest, trace (run sv (processImages path obj) w) =
             SafeSearchDetection (gs_uri obj filePath) :: rest) ∧
  (verdict sv Images (gs_uri obj filePath) = Returned true ↔
     flagging (adult_level result) ∨ flagging (violence_level result)) ∧
  (FileDelete filePath ∈ trace (run sv (processImages path obj) w) ↔
     flagging (adult_level result) ∨ flagging (violence_level result)) ∧
  (flagging (adult_level result) ∨ flagging (violence_level result) →
     ∃ rest, calls (trace (run sv (processImages path obj) w)) =
               SafeSearchDetection (gs_uri obj filePath) :: FileDelete filePath :: rest) ∧
  (¬ (flagging (adult_level result) ∨ flagging (violence_level result)) →
     run sv (processImages path obj) w =
       ([SafeSearchDetection (gs_uri obj filePath); Log ["Processing image finished"%string]],
        Returned null, w)) ∧
  (sparing (adult_level result) → sparing (violence_level result) →
     (∀ p, FileDelete p ∉ trace (run sv (processImages path obj) w)) ∧
     objects (final (run sv (processImages path obj) w)) = objects w).
Proof.
  intros Hg Hr. pose proof (detect_image sv _ result Hr) as Hd.
  change (processImages path obj) with (trigger path params Images obj).
  rewrite (run_trigger sv Images obj filePath w Hg), Hd.
  assert (verdict sv Images (gs_uri obj filePath) = Returned true ↔
          flagging (adult_level result) ∨ flagging (violence_level result)) as Hverdict.
  { unfold verdict. rewrite Hd. cbn. rewrite <- imageVerdict_spec.
    split; [by intros [= ->] | by intros ->]. }
  pose proof (imageVerdict_spec result) as Hspec.
  destruct (imageVerdict result) eqn:Hflag.
  - (* flagged: the replacement runs *)
    assert (flagging (adult_level result) ∨ flagging (violence_level result)) as Hyes
      by by apply Hspec.
    destruct (replacement_starts sv Images filePath w) as [rest Hrest].
    destruct (run sv (replacement path Images filePath) w) as [[tr1 [[] | e]] w1];
      cbn in Hrest; subst tr1; cbn.
    all: split; [by eexists|]; split; [exact Hverdict|].
    all: split; [split; [done | intros _; do 2 right; left]|].
    all: split; [intros _; by eexists|].
    all: split; [done|].
    all: intros Ha Hv; destruct Hyes as [H | H];
      [destruct (sparing_not_flagging _ Ha H) | destruct (sparing_not_flagging _ Hv H)].
  - (* not flagged: nothing but the closing log line *)
    assert (¬ (flagging (adult_level result) ∨ flagging (violence_level result))) as Hno.
    { intros H. apply Hspec in H. discriminate H. }
    cbn. split; [by eexists|]. split; [exact Hverdict|].
    assert (∀ p, FileDelete p ∉
                   [SafeSearchDetection (gs_uri obj filePath);
                    Log ["Processing image finished"%string]]) as Hnodel.
    { intros p Hin. apply list_elem_of_In in Hin. cbn in Hin.
      destruct Hin as [H | [H | []]]; discriminate H. }
    split; [split; [intros Hin; by destruct (Hnodel _ Hin) | done]|].
    split; [done|]. split; [done|]. by intros _ _.
Qed.

(** C3: when the object path is absent, or the declared content type
    does not start with the pipeline's marker (["image/"] or
    ["video/"]), the handler writes one log line and returns [null]: no
    other call is made, and the bucket and the disk are as before. *)
Theorem guard_is_noop (k : pipeline) (sv : services) (obj : ObjectMetadata) (w : world) :
  name obj = None ∨
    (∀ ct, contentType obj = Some ct → String.prefix (marker k) ct = false) →
  ∃ line, run sv (trigger path params k obj) w = ([Log [line]], Returned null, w).
Proof.
  intros Hguard.
  destruct (guard_dichotomy k obj) as [[filePath [Hn Hct]] | [line ->]].
  - exfalso. destruct Hguard as [Hnone | Hmark].
    + by rewrite Hnone in Hn.
    + by rewrite (not_startsWith_true _ _ Hmark) in Hct.
  - by exists line.
Qed.

(** The detection helpers only talk to their classifier. *)
Lemma detection_footprint (k : pipeline) (uri : string) :
  issues_only (λ r, classifier_call r = true) (detection k uri).
Proof.
  destruct k; footprint. cbn.
  match goal with |- context [videoVerdict ?res] => by destruct (videoVerdict res) end.
Qed.

Lemma detect_footprint (sv : services) (k : pipeline) (uri : string) :
  Forall (λ r, classifier_call r = true) (detect sv k uri).1.
Proof. apply (issues_only_interp _ (perform sv)), detection_footprint. Qed.

Lemma calls_app (tr1 tr2 : list request) : calls (tr1 ++ tr2) = calls tr1 ++ calls tr2.
Proof. apply List.filter_app. Qed.

Lemma calls_classifier (tr : list request) :
  Forall (λ r, classifier_call r = true) tr → calls tr = tr.
Proof.
  induction 1 as [| r tr Hr _ IH]; [done|].
  unfold calls in *. cbn. rewrite IH. by destruct r.
Qed.


(** C6, as amended: in every run of either handler that passed the
    guard, was flagged and returned normally, unlink of the temporary
    file is the call that follows the upload and is the last one, and no
    file is left at the temporary path. *)
Theorem flagged_success_unlinks (k : pipeline) (sv : services) (obj : ObjectMetadata)
    (filePath : string) (w : world) :
  passes_guard k obj filePath →
  verdict sv k (gs_uri obj filePath) = Returned true →
  ending (run sv (trigger path params k obj) w) = Returned null →
  (∃ before, calls (trace (run sv (trigger path params k obj) w)) =
     before ++ [BucketUpload (tempFilePath path filePath) filePath true;
                Unlink (tempFilePath path filePath)]) ∧
  files (final (run sv (trigger path params k obj) w)) !! tempFilePath path filePath = None.
Proof.
  intros Hg Hv. rewrite (run_trigger sv k obj filePath w Hg).
  unfold verdict in Hv.
  destruct (detect sv k (gs_uri obj filePath)) as [tr0 o]. cbn in Hv. subst o.
  destruct (run sv (replacement path k filePath) w) as [[tr1 [[] | e]] w1] eqn:E;
    cbn; [intros _ | discriminate].
  apply replacement_success in E as (Hcalls & b & _ & _ & Hfiles).
  split.
  - exists (calls tr0 ++ [FileDelete filePath;
                          Mkdirp (dirname path (tempFilePath path filePath));
                          FileDownload (placeholder k) (tempFilePath path filePath)]).
    by rewrite !calls_app, Hcalls, app_nil_r, <- app_assoc.
  - rewrite Hfiles. apply lookup_delete_eq.
Qed.

Lemma detect_video_returned (sv : services) (uri : string) (b : bool) :
  verdict sv Videos uri = Returned b →
  ∃ operation, (detect sv Videos uri).1 =
    [AnnotateVideo uri ["EXPLICIT_CONTENT_DETECTION"%string]; OperationPromise operation].
Proof.
  unfold verdict, detect, run. cbn.
  destruct (startAnnotation sv uri _) as [operation | e]; cbn; [|discriminate].
  destruct (operationResult sv operation) as [res | e]; cbn; [|discriminate].
  destruct (videoVerdict res); cbn; [|discriminate]. by exists operation.
Qed.

(** The video handler's [else] branch leaves the bucket and the disk
    alone, whatever the signer and the transcoding service answer. *)
Lemma unflagged_video_spares_storage (sv : services) (obj : ObjectMetadata)
    (filePath : string) (w : world) :
  passes_guard Videos obj filePath →
  verdict sv Videos (gs_uri obj filePath) = Returned false →
  Forall (λ c, touches_storage c = false) (trace (run sv (transcodeVideo path params obj) w)) ∧
  final (run sv (transcodeVideo path params obj) w) = w.
Proof.
  intros Hg Hv.
  change (transcodeVideo path params obj) with (trigger path params Videos obj).
  rewrite (run_trigger sv Videos obj filePath w Hg).
  destruct (detect_video_returned sv _ _ Hv) as [operation Htr0].
  unfold verdict in Hv.
  destruct (detect sv Videos (gs_uri obj filePath)) as [tr0 o]. cbn in Hv, Htr0.
  subst o tr0. rewrite run_forward_videos. cbn zeta.
  destruct (signedUrl sv filePath "read" _) as [u | e];
    [destruct (streamCopy sv _) as [[] | e]|]; cbn; (split; [by repeat constructor | done]).
Qed.

(** C7: in every run of the video handler that passed the guard, was
    not flagged and got its signed URL, the calls are, in order: the
    classifier's two, the clock, the request for a signed URL for reading
    the object that expires 3,600,000 milliseconds after the clock's
    value, and one POST to [{base}/{account}/stream/copy] with the bearer
    token, whose body carries the signed URL and, as [meta.path], the
    object path; no call deletes, downloads or uploads an object, and the
    bucket and the disk are as before. *)
Theorem unflagged_video_is_forwarded (sv : services) (obj : ObjectMetadata)
    (filePath downloadURL : string) (w : world) :
  passes_guard Videos obj filePath →
  verdict sv Videos (gs_uri obj filePath) = Returned false →
  signedUrl sv filePath "read" (clock sv + 3600000) = Resolved downloadURL →
  (∃ operation,
     calls (trace (run sv (transcodeVideo path params obj) w)) =
       [AnnotateVideo (gs_uri obj filePath) ["EXPLICIT_CONTENT_DETECTION"%string];
        OperationPromise operation;
        DateNow;
        GetSignedUrl filePath "read" (clock sv + 3600000);
        Axios {|
          method := "POST";
          url := cloudflareBaseURL params +:+ "/" +:+ cloudflareAccountId params
                   +:+ "/stream/copy";
          headers := [("Authorization", "Bearer " +:+ cloudflareApiToken params);
                      ("Content-Type", "application/json")]%string;
          data := {| copy_url := downloadURL;
                     meta_name := format path
                                    (basename path filePath (extname path filePath))
                                    (extname path filePath);
                     meta_path := filePath;
                     meta_contentURI := downloadURL;
                     meta_contentRef := filePath |} |}]) ∧
  Forall (λ c, touches_storage c = false) (trace (run sv (transcodeVideo path params obj) w)) ∧
  final (run sv (transcodeVideo path params obj) w) = w.
Proof.
  intros Hg Hv Hu. split; [|by apply (unflagged_video_spares_storage sv obj filePath)].
  change (transcodeVideo path params obj) with (trigger path params Videos obj).
  rewrite (run_trigger sv Videos obj filePath w Hg).
  destruct (detect_video_returned sv _ _ Hv) as [operation Htr0].
  unfold verdict in Hv.
  destruct (detect sv Videos (gs_uri obj filePath)) as [tr0 o]. cbn in Hv, Htr0.
  subst o tr0. rewrite run_forward_videos. cbn zeta.
  change (1000 * 60 * 60) with 3600000. rewrite Hu.
  exists operation. by destruct (streamCopy sv _) as [[] | e].
Qed.

Lemma narrow_Some (s : option string) (filePath : string) :
  narrow s = Some filePath → s = Some filePath.
Proof. unfold narrow. by destruct (falsy s). Qed.

(** Every delete and every upload of a handler targets the event path. *)
Lemma trigger_footprint (k : pipeline) (obj : ObjectMetadata) (q : string) :
  name obj ≠ Some q → issues_only (spares q) (trigger path params k obj).
Proof.
  intros Hq.
  destruct (guard_dichotomy k obj) as [[filePath [Hn Hct]] | [line ->]]; [|by cbn].
  assert (filePath ≠ q) as Hne.
  { intros ->. by apply narrow_Some in Hn. }
  rewrite (trigger_passed k obj filePath Hn Hct).
  apply issues_only_try_catch; [|by cbn].
  apply issues_only_bind.
  { apply (issues_only_mono _ _ _ (detection_footprint k _)). by intros []. }
  intros [|]; (apply issues_only_bind; [|by cbn]).
  - footprint.
  - destruct k; footprint.
Qed.

Lemma perform_spares (sv : services) (q : string) (r : request) (w : world) :
  spares q r → objects (perform sv r w).2 !! q = objects w !! q.
Proof.
  destruct r; cbn; try done; unfold unless_outage;
    destruct (outage sv _); cbn; try done; intros Hne.
  - unfold bucket_delete. destruct (objects w !! path0); cbn; [|done].
    by apply lookup_delete_ne.
  - unfold bucket_download. by destruct (objects w !! path0).
  - unfold bucket_upload. destruct (files w !! localPath); cbn; [|done].
    by apply lookup_insert_ne.
  - unfold fs_unlink. by destruct (files w !! path0).
Qed.

(** A run that passed the guard and whose detection did not return
    [true] touches no object and leaves bucket and disk as they were. *)
Lemma quiet_unless_flagged (k : pipeline) (sv : services) (obj : ObjectMetadata)
    (filePath : string) (w : world) :
  passes_guard k obj filePath →
  verdict sv k (gs_uri obj filePath) ≠ Returned true →
  Forall (λ r, touches_storage r = false) (trace (run sv (trigger path params k obj) w)) ∧
  final (run sv (trigger path params k obj) w) = w.
Proof.
  intros Hg Hv. rewrite (run_trigger sv k obj filePath w Hg).
  pose proof (detect_footprint sv k (gs_uri obj filePath)) as Hq.
  assert (Forall (λ r, touches_storage r = false) (detect sv k (gs_uri obj filePath)).1)
    as Hq' by (eapply Forall_impl; [exact Hq | by intros []]).
  unfold verdict in Hv.
  destruct (detect sv k (gs_uri obj filePath)) as [tr0 [[|] | e]]; cbn in Hv, Hq'; [done | |].
  - destruct k.
    + cbn. split; [|done]. rewrite Forall_app. split; [done | by repeat constructor].
    + rewrite run_forward_videos. cbn zeta.
      destruct (signedUrl sv filePath "read" _) as [u | e];
        [destruct (streamCopy sv _) as [[] | e]|]; cbn; (split; [|done]);
        rewrite Forall_app; (split; [done | by repeat constructor]).
  - cbn. split; [|done]. rewrite Forall_app. split; [done | by repeat constructor].
Qed.

(** C8, as amended: in every run of either handler, no call deletes a
    placeholder or uploads over it, and the bucket holds at the
    placeholder's path what it held before, unless the event's own path
    is that placeholder's path, the event passes the guard and the
    detection flags it. *)
Theorem placeholders_only_read (k k' : pipeline) (sv : services) (obj : ObjectMetadata)
    (w : world) :
  ¬ (passes_guard k obj (placeholder k') ∧
     verdict sv k (gs_uri obj (placeholder k')) = Returned true) →
  Forall (spares (placeholder k')) (trace (run sv (trigger path params k obj) w)) ∧
  objects (final (run sv (trigger path params k obj) w)) !! placeholder k' =
    objects w !! placeholder k'.
Proof.
  intros Hnot.
  destruct (decide (name obj = Some (placeholder k'))) as [Hname | Hq].
  - destruct (guard_dichotomy k obj) as [[filePath Hg] | [line ->]].
    + assert (filePath = placeholder k') as ->.
      { destruct Hg as [Hn _]. apply narrow_Some in Hn. congruence. }
      assert (verdict sv k (gs_uri obj (placeholder k')) ≠ Returned true) as Hv
        by (intros Hv; by apply Hnot).
      destruct (quiet_unless_flagged k sv obj _ w Hg Hv) as [Htr ->].
      split; [|done]. eapply Forall_impl; [exact Htr | by intros []].
    + cbn. split; [by repeat constructor | done].
  - pose proof (trigger_footprint k obj _ Hq) as Hfoot. split.
    + by apply issues_only_interp.
    + apply (interp_invariant (spares (placeholder k'))
               (λ w0, objects w0 !! placeholder k' = objects w !! placeholder k')
               (perform sv)); [done | | done].
      intros r w0 Hr Hw0. by rewrite perform_spares.
Qed.

(** A run either sends no transcoding request or changes no object. *)
Lemma one_branch {S : Type} (h : handler S) (k : pipeline) (obj : ObjectMetadata) (s : S) :
  Forall (λ r, is_axios r = false) (trace (interp h (trigger path params k obj) s)) ∨
  Forall (λ r, mutates_bucket r = false) (trace (interp h (trigger path params k obj) s)).
Proof.
  destruct (guard_dichotomy k obj) as [[filePath Hg] | [line ->]].
  - rewrite (interp_trigger h k obj filePath s Hg).
    pose proof (issues_only_interp _ h _ s
                  (detection_footprint k (gs_uri obj filePath))) as Hq.
    destruct (interp h (detection k _) s) as [[tr0 [flagged | e]] s0]; cbn in Hq.
    + destruct flagged.
      * left.
        assert (issues_only (λ r, is_axios r = false) (replacement path k filePath))
          as Hfoot by footprint.
        apply (issues_only_interp _ h _ s0) in Hfoot.
        destruct (interp h (replacement path k filePath) s0) as [[tr1 [[] | e]] s1];
          cbn in *; rewrite !Forall_app; repeat split;
          try done; try (by repeat constructor);
          (eapply Forall_impl; [exact Hq | by intros []]).
      * right.
        assert (issues_only (λ r, mutates_bucket r = false)
                  (forward path params k filePath)) as Hfoot
          by (destruct k; footprint).
        apply (issues_only_interp _ h _ s0) in Hfoot.
        destruct (interp h (forward path params k filePath) s0) as [[tr1 [[] | e]] s1];
          cbn in *; rewrite !Forall_app; repeat split;
          try done; try (by repeat constructor);
          (eapply Forall_impl; [exact Hq | by intros []]).
    + left. cbn. rewrite Forall_app. split; [|by repeat constructor].
      eapply Forall_impl; [exact Hq | by intros []].
  - left. cbn. destruct (h (Log [line]) s). by repeat constructor.
Qed.

(** C9: in every run of the video handler, against any implementation
    of its collaborators, the trace does not hold both a call that
    deletes or uploads an object and a POST to the transcoding
    service. *)
Theorem branches_exclusive {S : Type} (h : handler S) (obj : ObjectMetadata) (s : S) :
  existsb mutates_bucket (trace (interp h (transcodeVideo path params obj) s)) &&
  existsb is_axios (trace (interp h (transcodeVideo path params obj) s)) = false.
Proof.
  apply andb_false_iff.
  destruct (one_branch h Videos obj s) as [H | H]; cbn [trigger] in H;
    [right | left]; apply not_true_is_false; rewrite existsb_exists;
    intros (r & Hin & Hr); rewrite Forall_forall in H;
    apply list_elem_of_In, H in Hin; congruence.
Qed.

End Handlers.

(** ** What a run depends on *)



Section Dependence.

Variable path : PathModule.
Variable params : Params.





End Dependence.


(** ** Scenarios *)

Example sample_temp_paths :
  tempFilePath Posix.module "publishes/st/1/cat.png" = "/tmp/publishes/st/1/cat.png"%string ∧
  dirname Posix.module "/tmp/publishes/st/1/cat.png" = "/tmp/publishes/st/1"%string ∧
  format Posix.module (basename Posix.module "publishes/st/1/clip.mp4" ".mp4") ".mp4" =
    "clip.mp4"%string.
Proof. repeat split. Qed.

(** An image classified adult: LIKELY, violence: UNKNOWN is deleted, the
    placeholder is put in its place, the temporary file is removed and
    the handler returns. *)
Example scenario_flagged_image :
  let sv := Sample.services_of (Sample.image_levels "LIKELY" "UNKNOWN")
              (response_of_frames []) Sample.no_outage in
  let r := run sv (processImages Posix.module Sample.image_event) Sample.uploaded in
  trace r =
    [SafeSearchDetection "gs://raw/publishes/st/1/cat.png";
     Log ["Adult or violent content detected"];
     FileDelete "publishes/st/1/cat.png";
     Mkdirp "/tmp/publishes/st/1";
     FileDownload "prohibited.png" "/tmp/publishes/st/1/cat.png";
     Log ["The replacement file has been downloaded to: "; "/tmp/publishes/st/1/cat.png"];
     BucketUpload "/tmp/publishes/st/1/cat.png" "publishes/st/1/cat.png" true;
     Log ["Uploaded the replacement file to: "; "publishes/st/1/cat.png"];
     Unlink "/tmp/publishes/st/1/cat.png";
     Log ["Unlinked the downloaded file from: "; "/tmp/publishes/st/1/cat.png"];
     Log ["Processing image finished"]]%string ∧
  ending r = Returned null ∧
  objects (final r) !! "publishes/st/1/cat.png"%string = Some Sample.prohibited_png ∧
  files (final r) = ∅.
Proof. cbn zeta. repeat split; vm_compute; reflexivity. Qed.

(** A video whose frames are all below POSSIBLE is handed to the
    transcoding service with a URL signed for one hour. *)
Example scenario_unflagged_video :
  let sv := Sample.services_of (Sample.image_levels "UNKNOWN" "UNKNOWN")
              (response_of_frames (Sample.frames_of [1; 2])) Sample.no_outage in
  let r := run sv (transcodeVideo Posix.module Sample.params Sample.video_event)
             Sample.uploaded in
  trace r =
    [AnnotateVideo "gs://raw/publishes/st/1/clip.mp4" ["EXPLICIT_CONTENT_DETECTION"];
     OperationPromise "operations/1";
     DateNow;
     GetSignedUrl "publishes/st/1/clip.mp4" "read" 1700003600000;
     Axios {|
       method := "POST";
       url := "https://api.cloudflare.com/client/v4/accounts/acct42/stream/copy";
       headers := [("Authorization", "Bearer s3cr3t");
                   ("Content-Type", "application/json")];
       data := {|
         copy_url := "https://storage.googleapis.com/raw/publishes/st/1/clip.mp4";
         meta_name := "clip.mp4";
         meta_path := "publishes/st/1/clip.mp4";
         meta_contentURI := "https://storage.googleapis.com/raw/publishes/st/1/clip.mp4";
         meta_contentRef := "publishes/st/1/clip.mp4" |} |};
     Log ["Processing video finished"]]%string ∧
  ending r = Returned null ∧
  final r = Sample.uploaded.
Proof. cbn zeta. repeat split; vm_compute; reflexivity. Qed.

(** A flagged image whose original is already gone: the delete is
    refused, the handler logs the error and rethrows, and the path is
    left without an object. *)
Example scenario_delete_refused :
  let sv := Sample.services_of (Sample.image_levels "LIKELY" "UNKNOWN")
              (response_of_frames []) Sample.no_outage in
  let w := {| objects := delete "publishes/st/1/cat.png"%string (objects Sample.uploaded);
              files := ∅ |} in
  let r := run sv (processImages Posix.module Sample.image_event) w in
  trace r =
    [SafeSearchDetection "gs://raw/publishes/st/1/cat.png";
     Log ["Adult or violent content detected"];
     FileDelete "publishes/st/1/cat.png";
     LogError (ApiError 404 "No such object: publishes/st/1/cat.png")]%string ∧
  ending r = Thrown (ApiError 404 "No such object: publishes/st/1/cat.png").
Proof. cbn zeta. repeat split; vm_compute; reflexivity. Qed.

(** ** The theorems at sample inputs *)

Lemma image_flag_rule_witness :
  let flag := Sample.services_of (Sample.image_levels "LIKELY" "UNKNOWN")
                (response_of_frames []) Sample.no_outage in
  let spare := Sample.services_of (Sample.image_levels "VERY_UNLIKELY" "UNLIKELY")
                 (response_of_frames []) Sample.no_outage in
  let flagged := run flag (processImages Posix.module Sample.image_event) Sample.uploaded in
  let spared := run spare (processImages Posix.module Sample.image_event) Sample.uploaded in
  FileDelete "publishes/st/1/cat.png" ∈ trace flagged ∧
  (∀ p, FileDelete p ∉ trace spared) ∧ objects (final spared) = objects Sample.uploaded.
Proof.
  cbn zeta. split.
  - apply (image_flag_rule Posix.module Sample.params _ _ "publishes/st/1/cat.png" _
             (Sample.image_levels "LIKELY" "UNKNOWN")).
    + split; reflexivity.
    + reflexivity.
    + left. right. left. reflexivity.
  - apply (image_flag_rule Posix.module Sample.params _ _ "publishes/st/1/cat.png" _
             (Sample.image_levels "VERY_UNLIKELY" "UNLIKELY")).
    + split; reflexivity.
    + reflexivity.
    + right. left. reflexivity.
    + right. right. reflexivity.
Defined.

Lemma guard_is_noop_witness :
  ∃ line,
    run (Sample.services_of (Sample.image_levels "LIKELY" "LIKELY")
           (response_of_frames (Sample.frames_of [5])) Sample.no_outage)
        (trigger Posix.module Sample.params Videos Sample.untyped_event) Sample.uploaded =
    ([Log [line]], Returned null, Sample.uploaded).
Proof.
  apply guard_is_noop. right. intros ct H. discriminate H.
Defined.


Lemma flagged_success_unlinks_witness :
  let sv := Sample.services_of (Sample.image_levels "UNKNOWN" "UNKNOWN")
              (response_of_frames (Sample.frames_of [1; 4])) Sample.no_outage in
  let r := run sv (trigger Posix.module Sample.params Videos Sample.video_event)
             Sample.uploaded in
  (∃ before, calls (trace r) =
     before ++ [BucketUpload (tempFilePath Posix.module "publishes/st/1/clip.mp4")
                  "publishes/st/1/clip.mp4" true;
                Unlink (tempFilePath Posix.module "publishes/st/1/clip.mp4")]) ∧
  files (final r) !! tempFilePath Posix.module "publishes/st/1/clip.mp4" = None.
Proof.
  cbn zeta. apply flagged_success_unlinks.
  - split; reflexivity.
  - reflexivity.
  - vm_compute. reflexivity.
Defined.

(** C6, as stated, fails: the classifier flags the image, the upload of
    the placeholder is refused, and the handler rethrows; unlink is never
    called and the downloaded placeholder stays in the temporary
    directory. *)
Lemma upload_outage_keeps_temp_file :
  let sv := Sample.services_of (Sample.image_levels "LIKELY" "UNKNOWN")
              (response_of_frames []) Sample.upload_down in
  let r := run sv (processImages Posix.module Sample.image_event) Sample.uploaded in
  passes_guard Images Sample.image_event "publishes/st/1/cat.png" ∧
  verdict sv Images (gs_uri Sample.image_event "publishes/st/1/cat.png") = Returned true ∧
  existsb is_unlink (trace r) = false ∧
  files (final r) !! tempFilePath Posix.module "publishes/st/1/cat.png" =
    Some Sample.prohibited_png ∧
  ending r = Thrown (ApiError 503 "Service Unavailable").
Proof. cbn zeta. repeat split; vm_compute; reflexivity. Qed.

Lemma unflagged_video_is_forwarded_witness :
  let sv := Sample.services_of (Sample.image_levels "UNKNOWN" "UNKNOWN")
              (response_of_frames (Sample.frames_of [1; 2])) Sample.no_outage in
  let r := run sv (transcodeVideo Posix.module Sample.params Sample.video_event)
             Sample.uploaded in
  (∃ operation,
     calls (trace r) =
       [AnnotateVideo (gs_uri Sample.video_event "publishes/st/1/clip.mp4")
          ["EXPLICIT_CONTENT_DETECTION"%string];
        OperationPromise operation;
        DateNow;
        GetSignedUrl "publishes/st/1/clip.mp4" "read" (clock sv + 3600000);
        Axios {|
          method := "POST";
          url := cloudflareBaseURL Sample.params +:+ "/"
                   +:+ cloudflareAccountId Sample.params +:+ "/stream/copy";
          headers := [("Authorization", "Bearer " +:+ cloudflareApiToken Sample.params);
                      ("Content-Type", "application/json")]%string;
          data := {| copy_url :=
                       "https://storage.googleapis.com/raw/publishes/st/1/clip.mp4";
                     meta_name := format Posix.module
                                    (basename Posix.module "publishes/st/1/clip.mp4"
                                       (extname Posix.module "publishes/st/1/clip.mp4"))
                                    (extname Posix.module "publishes/st/1/clip.mp4");
                     meta_path := "publishes/st/1/clip.mp4";
                     meta_contentURI :=
                       "https://storage.googleapis.com/raw/publishes/st/1/clip.mp4";
                     meta_contentRef := "publishes/st/1/clip.mp4" |} |}]) ∧
  Forall (λ c, touches_storage c = false) (trace r) ∧
  final r = Sample.uploaded.
Proof.
  cbn zeta. apply unflagged_video_is_forwarded.
  - split; reflexivity.
  - reflexivity.
  - reflexivity.
Defined.

(** C8, as stated, fails: the event is the image placeholder itself and
    the classifier flags it; the handler deletes the placeholder, the
    download that follows finds nothing, and the bucket is left without
    it. *)
Lemma flagged_placeholder_is_deleted :
  let sv := Sample.services_of (Sample.image_levels "LIKELY" "UNKNOWN")
              (response_of_frames []) Sample.no_outage in
  let r := run sv (processImages Posix.module Sample.placeholder_event) Sample.uploaded in
  name Sample.placeholder_event = Some REPLACEMENT_IMAGE_FILE_PATH ∧
  objects Sample.uploaded !! REPLACEMENT_IMAGE_FILE_PATH = Some Sample.prohibited_png ∧
  existsb (λ c, bool_decide (c = FileDelete REPLACEMENT_IMAGE_FILE_PATH)) (trace r) = true ∧
  objects (final r) !! REPLACEMENT_IMAGE_FILE_PATH = None.
Proof. cbn zeta. repeat split; vm_compute; reflexivity. Qed.

Lemma placeholders_only_read_witness :
  let sv := Sample.services_of (Sample.image_levels "UNLIKELY" "VERY_UNLIKELY")
              (response_of_frames []) Sample.no_outage in
  let r := run sv (trigger Posix.module Sample.params Images Sample.placeholder_event)
             Sample.uploaded in
  Forall (spares (placeholder Images)) (trace r) ∧
  objects (final r) !! placeholder Images = objects Sample.uploaded !! placeholder Images.
Proof.
  cbn zeta. apply placeholders_only_read.
  intros [_ Hv]. vm_compute in Hv. discriminate Hv.
Defined.





(** * Further properties of the handlers *)

(** ** The frame rule and the frame loop *)

(** A frame is flagged exactly when its likelihood, read as a number,
    is 3, 4 or 5: an absent field, zero, a negative number and a number
    past the end of [likelihoods] never flag. *)
Theorem frame_flag_bounds (frame : ExplicitContentFrame) :
  frameVerdict frame = true ↔ ∃ n, pornographyLikelihood frame = Some n ∧ 3 ≤ n ≤ 5.
Proof.
  rewrite frameVerdict_spec. unfold frame_flagging, flagging, index.
  destruct (pornographyLikelihood frame) as [n|].
  2: { split; [intros [H | [H | H]]; discriminate H | intros (n & [=] & _)]. }
  destruct (decide (3 ≤ n ≤ 5)) as [Hin | Hout].
  - assert (n = 3 ∨ n = 4 ∨ n = 5) as [-> | [-> | ->]] by lia;
      (split; [intros _; eexists; split; [reflexivity | lia] | intros _; cbn; auto]).
  - split; [|intros (m & [= <-] & Hm); lia].
    destruct (n <? 0) eqn:Hneg; [intros [H | [H | H]]; discriminate H|].
    apply Z.ltb_ge in Hneg.
    destruct (decide (n ≤ 2)) as [Hlow | Hhigh].
    + assert (n = 0 ∨ n = 1 ∨ n = 2) as [-> | [-> | ->]] by lia;
        cbn; intros [H | [H | H]]; discriminate H.
    + assert (nth_error likelihoods (Z.to_nat n) = None) as ->.
      { apply nth_error_None. cbn. lia. }
      intros [H | [H | H]]; discriminate H.
Qed.

(** Of a response with annotation results, only the first result is
    read, and of its frames only the last one decides: the detection
    returns that frame's verdict, whatever the frames before it and the
    results after the first. *)
Theorem verdict_is_last_frame_of_first_result (first : VideoAnnotationResults)
    (rest : list VideoAnnotationResults) (fs : list ExplicitContentFrame)
    (frame : ExplicitContentFrame) :
  explicitAnnotation first ≫= frames = Some (fs ++ [frame]) →
  videoVerdict {| annotationResults := Some (first :: rest) |} =
    Returned (frameVerdict frame).
Proof.
  intros H. unfold videoVerdict. cbn -[forEach_assign Z.ltb]. rewrite H.
  rewrite forEach_assign_last.
  assert ((0 <? Z.of_nat (length (fs ++ [frame]))) = true) as ->; [|done].
  apply Z.ltb_lt. rewrite length_app. cbn. lia.
Qed.

Section MoreHandlers.

Variable path : PathModule.
Variable params : Params.

(** ** Footprints of the whole handlers *)

(** A property of requests that holds of the log lines, of the
    classifier's calls and of both branches holds of everything a
    handler can issue. *)
Lemma trigger_issues_only (P : request -> Prop) (k : pipeline) (obj : ObjectMetadata) :
  (∀ r, is_log r = true → P r) →
  (∀ r, classifier_call r = true → P r) →
  (∀ filePath, passes_guard k obj filePath →
     issues_only P (replacement path k filePath) ∧
     issues_only P (forward path params k filePath)) →
  issues_only P (trigger path params k obj).
Proof.
  intros Hlog Hcls Hbranches.
  destruct (guard_dichotomy path params k obj) as [[filePath Hg] | [line ->]].
  - destruct (Hbranches filePath Hg) as [Hrep Hfwd]. destruct Hg as [Hn Hct].
    rewrite (trigger_passed path params k obj filePath Hn Hct).
    apply issues_only_try_catch.
    + apply issues_only_bind.
      { by apply (issues_only_mono _ _ _ (detection_footprint k _)). }
      intros [|]; (apply issues_only_bind; [done|]); intros _; cbn;
        (split; [by apply Hlog | done]).
    + intros e. cbn. split; [by apply Hlog | done].
  - cbn. split; [by apply Hlog | done].
Qed.

(** The image handler never reads the clock, never asks for a signed
    URL and never posts to the transcoding service, whatever its
    collaborators answer. *)
Theorem images_are_never_forwarded {S : Type} (h : handler S) (obj : ObjectMetadata)
    (s : S) :
  Forall (λ r, transcoding_call r = false) (trace (interp h (processImages path obj) s)).
Proof.
  apply issues_only_interp.
  apply (trigger_issues_only _ Images obj); [by intros [] | by intros [] |].
  intros filePath _. split; footprint.
Qed.

(** In every run of either handler, failing or not, an object whose
    path is not the event's is at the end what it was at the start. *)
Theorem other_objects_untouched (k : pipeline) (sv : services) (obj : ObjectMetadata)
    (w : world) (q : string) :
  name obj ≠ Some q →
  objects (final (run sv (trigger path params k obj) w)) !! q = objects w !! q.
Proof.
  intros Hq.
  apply (interp_invariant (spares q) (λ w0, objects w0 !! q = objects w !! q)
           (perform sv)); [by apply trigger_footprint | | done].
  intros r w0 Hr Hw0. by rewrite perform_spares.
Qed.

Lemma perform_spares_file (sv : services) (q : string) (r : request) (w : world) :
  spares_file q r → files (perform sv r w).2 !! q = files w !! q.
Proof.
  destruct r; cbn; try done; unfold unless_outage;
    destruct (outage sv _); cbn; try done; intros Hne.
  - unfold bucket_delete. by destruct (objects w !! path0).
  - unfold bucket_download. destruct (objects w !! path0); cbn; [|done].
    by apply lookup_insert_ne.
  - unfold bucket_upload. by destruct (files w !! localPath).
  - unfold fs_unlink. destruct (files w !! path0); cbn; [|done].
    by apply lookup_delete_ne.
Qed.

(** In every run of either handler, failing or not, the only local file
    written or removed is the temporary file of the event path: every
    other local file is at the end what it was at the start. *)
Theorem other_files_untouched (k : pipeline) (sv : services) (obj : ObjectMetadata)
    (w : world) (q : string) :
  (∀ filePath, name obj = Some filePath → q ≠ tempFilePath path filePath) →
  files (final (run sv (trigger path params k obj) w)) !! q = files w !! q.
Proof.
  intros Hq.
  apply (interp_invariant (spares_file q) (λ w0, files w0 !! q = files w !! q)
           (perform sv)); [| | done].
  - apply trigger_issues_only; [by intros [] | by intros [] |].
    intros filePath [Hn _]. apply narrow_Some in Hn.
    specialize (Hq filePath Hn). unfold tempFilePath in Hq.
    assert (join path (tmpdir path) filePath ≠ q) as Hne by congruence.
    split; [footprint | destruct k; footprint].
  - intros r w0 Hr Hw0. by rewrite perform_spares_file.
Qed.

(** ** The [catch] clause *)

Lemma moderate_never_logs_errors (k : pipeline) (obj : ObjectMetadata) (filePath : string) :
  issues_only (λ r, is_log_error r = false) (moderate path params k obj filePath).
Proof.
  apply issues_only_bind.
  { apply (issues_only_mono _ _ _ (detection_footprint k _)). by intros []. }
  intros [|]; (apply issues_only_bind; [|by cbn]).
  - footprint.
  - destruct k; footprint.
Qed.

(** Whatever the collaborators answer, a run that throws [e] has logged
    [e] once, as its last call, and no other error; a run that returns
    has logged no error. *)
Theorem errors_are_logged_once {S : Type} (h : handler S) (k : pipeline)
    (obj : ObjectMetadata) (s : S) :
  match ending (interp h (trigger path params k obj) s) with
  | Thrown e =>
      ∃ tr, trace (interp h (trigger path params k obj) s) = tr ++ [LogError e] ∧
            Forall (λ r, is_log_error r = false) tr
  | Returned _ =>
      Forall (λ r, is_log_error r = false) (trace (interp h (trigger path params k obj) s))
  end.
Proof.
  destruct (guard_dichotomy path params k obj) as [[filePath [Hn Hct]] | [line ->]].
  - rewrite (trigger_passed path params k obj filePath Hn Hct), interp_try_catch.
    pose proof (issues_only_interp _ h _ s
                  (moderate_never_logs_errors k obj filePath)) as Hq.
    destruct (interp h (moderate path params k obj filePath) s) as [[tr [v | e]] s1];
      cbn in Hq |- *; [done|].
    destruct (h (LogError e) s1). cbn. by exists tr.
  - cbn. destruct (h (Log [line]) s). cbn. by repeat constructor.
Qed.

(** ** The classifier decides *)

Lemma detect_head (sv : services) (k : pipeline) (uri : string) :
  ∃ r tr, (detect sv k uri).1 = r :: tr ∧ classifier_call r = true.
Proof.
  unfold detect, run. destruct k; cbn.
  - destruct (safeSearch sv uri); cbn; by eexists _, _.
  - destruct (startAnnotation sv uri _) as [operation | e]; cbn; [|by eexists _, _].
    destruct (operationResult sv operation) as [res | e]; cbn; [|by eexists _, _].
    destruct (videoVerdict res); cbn; by eexists _, _.
Qed.

Lemma narrow_spec (s : option string) (filePath : string) :
  narrow s = Some filePath ↔ s = Some filePath ∧ filePath ≠ EmptyString.
Proof.
  unfold narrow, falsy. destruct s as [[|c fp] |]; split;
    try (intros [= <-]; done); try (intros [[= <-] H]; done); try done.
Qed.

Lemma not_startsWith_false (ct : option string) (m : string) :
  not_startsWith ct m = false ↔ ∃ c, ct = Some c ∧ String.prefix m c = true.
Proof.
  unfold not_startsWith. destruct ct as [c|].
  - rewrite negb_false_iff. split; [by exists c | by intros (c' & [= <-] & H)].
  - split; [done | by intros (c' & [=] & _)].
Qed.

Lemma passes_guard_spec (k : pipeline) (obj : ObjectMetadata) (filePath : string) :
  passes_guard k obj filePath ↔
  name obj = Some filePath ∧ filePath ≠ EmptyString ∧
  ∃ ct, contentType obj = Some ct ∧ String.prefix (marker k) ct = true.
Proof.
  unfold passes_guard. rewrite narrow_spec, not_startsWith_false. tauto.
Qed.

(** A classifier is consulted exactly for the events with a non-empty
    path and a declared content type that starts with the pipeline's
    marker; an empty path counts as an absent one. *)
Theorem classifier_consulted_iff (k : pipeline) (sv : services) (obj : ObjectMetadata)
    (w : world) :
  existsb classifier_call (trace (run sv (trigger path params k obj) w)) = true ↔
  ∃ filePath ct, name obj = Some filePath ∧ filePath ≠ EmptyString ∧
                 contentType obj = Some ct ∧ String.prefix (marker k) ct = true.
Proof.
  destruct (guard_dichotomy path params k obj) as [[filePath Hg] | [line Heq]].
  - split.
    + intros _. apply passes_guard_spec in Hg as (? & ? & ct & ? & ?).
      by exists filePath, ct.
    + intros _. rewrite (run_trigger path params sv k obj filePath w Hg).
      destruct (detect_head sv k (gs_uri obj filePath)) as (r & tr & Htr & Hr).
      destruct (detect sv k (gs_uri obj filePath)) as [tr0 [flagged | e]];
        cbn in Htr; subst tr0.
      * destruct (run sv _ w) as [[tr1 [[] | e]] w1]; cbn; by rewrite Hr.
      * cbn. by rewrite Hr.
  - split.
    + unfold run. rewrite Heq. cbn. discriminate.
    + intros (filePath & ct & Hn & Hne & Hct & Hpre).
      assert (passes_guard k obj filePath) as [Hp1 Hp2].
      { apply passes_guard_spec. eauto. }
      rewrite (trigger_passed path params k obj filePath Hp1 Hp2) in Heq.
      unfold moderate in Heq. destruct k; cbn in Heq; discriminate Heq.
Qed.

Lemma prefix_head (a : ascii) (m s : string) :
  String.prefix (String a m) s = true → ∃ s', s = String a s'.
Proof.
  destruct s as [|c s']; [discriminate|].
  change (String.prefix (String a m) (String c s'))
    with (if ascii_dec a c then String.prefix m s' else false).
  destruct (ascii_dec a c) as [<- | _]; [by exists s' | discriminate].
Qed.

(** An event that one handler lets through its guard is a no-op for the
    other handler: no event is moderated by both pipelines. *)
Theorem pipelines_are_disjoint (k k' : pipeline) (sv : services) (obj : ObjectMetadata)
    (filePath : string) (w : world) :
  k ≠ k' →
  passes_guard k obj filePath →
  ∃ line, run sv (trigger path params k' obj) w = ([Log [line]], Returned null, w).
Proof.
  intros Hk Hg.
  destruct (guard_dichotomy path params k' obj) as [[filePath' Hg'] | [line ->]];
    [|by exists line].
  exfalso.
  apply passes_guard_spec in Hg as (_ & _ & ct & Hct & Hpre).
  apply passes_guard_spec in Hg' as (_ & _ & ct' & Hct' & Hpre').
  rewrite Hct in Hct'. injection Hct' as <-.
  destruct k, k'; try done;
    apply prefix_head in Hpre as [ct1 H1]; apply prefix_head in Hpre' as [ct2 H2];
    rewrite H1 in H2; discriminate H2.
Qed.

(** ** When the detection fails or does not flag *)

(** When the detection throws (the classifier rejects, or the response
    has an empty list of annotation results), the handler logs that
    error and rethrows it; nothing else is called and the bucket and the
    disk are as before. *)
Theorem detection_failure_is_rethrown (k : pipeline) (sv : services)
    (obj : ObjectMetadata) (filePath : string) (w : world) (e : error) :
  passes_guard k obj filePath →
  verdict sv k (gs_uri obj filePath) = Thrown e →
  run sv (trigger path params k obj) w =
    ((detect sv k (gs_uri obj filePath)).1 ++ [LogError e], Thrown e, w).
Proof.
  intros Hg Hv. rewrite (run_trigger path params sv k obj filePath w Hg).
  unfold verdict in Hv.
  destruct (detect sv k (gs_uri obj filePath)) as [tr0 o]. cbn in Hv. by subst o.
Qed.

Lemma run_forward_quiet (sv : services) (k : pipeline) (filePath : string) (w : world) :
  Forall (λ r, touches_storage r = false)
    (trace (run sv (forward path params k filePath) w)) ∧
  final (run sv (forward path params k filePath) w) = w.
Proof.
  destruct k; [by split; [constructor|]|].
  rewrite run_forward_videos. cbn zeta.
  destruct (signedUrl sv filePath "read" _) as [u | e];
    [destruct (streamCopy sv _) as [[] | e]|]; cbn; (split; [by repeat constructor | done]).
Qed.

(** The bucket and the disk change only when the detection returned
    [true]: in every other run of either handler no object is deleted,
    downloaded or uploaded and both are at the end as at the start. *)
Theorem storage_changes_only_when_flagged (k : pipeline) (sv : services)
    (obj : ObjectMetadata) (filePath : string) (w : world) :
  passes_guard k obj filePath →
  verdict sv k (gs_uri obj filePath) ≠ Returned true →
  Forall (λ r, touches_storage r = false) (trace (run sv (trigger path params k obj) w)) ∧
  final (run sv (trigger path params k obj) w) = w.
Proof.
  intros Hg Hv. rewrite (run_trigger path params sv k obj filePath w Hg).
  pose proof (detect_footprint sv k (gs_uri obj filePath)) as Hq.
  unfold verdict in Hv.
  destruct (detect sv k (gs_uri obj filePath)) as [tr0 [[|] | e]]; cbn in Hv, Hq; [done | |].
  - destruct (run_forward_quiet sv k filePath w) as [Htr Hw].
    destruct (run sv (forward path params k filePath) w) as [[tr1 [[] | e]] w1];
      cbn in Htr, Hw |- *; subst w1; (split; [|done]);
      rewrite !Forall_app; repeat split; try (by repeat constructor);
      try (eapply Forall_impl; [exact Hq | by intros []]);
      exact Htr.
  - cbn. split; [|done]. rewrite Forall_app. split; [|by repeat constructor].
    eapply Forall_impl; [exact Hq | by intros []].
Qed.

(** How an unflagged video run ends: it returns when the signer and the
    transcoding service both resolve, and otherwise rethrows the error
    of the first of the two that rejects; the POST is sent exactly when
    the signer resolved. *)
Theorem unflagged_video_endings (sv : services) (obj : ObjectMetadata)
    (filePath : string) (w : world) :
  passes_guard Videos obj filePath →
  verdict sv Videos (gs_uri obj filePath) = Returned false →
  ending (run sv (transcodeVideo path params obj) w) =
    match signedUrl sv filePath "read" (clock sv + 3600000) with
    | Rejected e => Thrown e
    | Resolved downloadURL =>
        match streamCopy sv (copy_request path params filePath downloadURL) with
        | Resolved _ => Returned null
        | Rejected e => Thrown e
        end
    end ∧
  existsb is_axios (trace (run sv (transcodeVideo path params obj) w)) =
    match signedUrl sv filePath "read" (clock sv + 3600000) with
    | Rejected _ => false
    | Resolved _ => true
    end.
Proof.
  intros Hg Hv.
  change (transcodeVideo path params obj) with (trigger path params Videos obj).
  rewrite (run_trigger path params sv Videos obj filePath w Hg).
  destruct (detect_video_returned sv _ _ Hv) as [operation Htr0].
  unfold verdict in Hv.
  destruct (detect sv Videos (gs_uri obj filePath)) as [tr0 o]. cbn in Hv, Htr0.
  subst o tr0. rewrite run_forward_videos. cbn zeta.
  change (1000 * 60 * 60) with 3600000.
  destruct (signedUrl sv filePath "read" (clock sv + 3600000)) as [u | e]; [|done].
  by destruct (streamCopy sv _) as [[] | e].
Qed.

(** ** The replacement, step by step *)

Lemma replacement_awaits (sv : services) (k : pipeline) (filePath : string) (w : world) :
  calls (trace (run sv (replacement path k filePath) w)) =
    (await_each sv (replacement_steps path k filePath) w).1.1 ∧
  ending (run sv (replacement path k filePath) w) =
    match (await_each sv (replacement_steps path k filePath) w).1.2 with
    | Some e => Thrown e
    | None => Returned tt
    end ∧
  final (run sv (replacement path k filePath) w) =
    (await_each sv (replacement_steps path k filePath) w).2.
Proof.
  unfold run, replacement, replacement_steps, tempFilePath, trace, ending, final.
  lockstep; done.
Qed.

(** The five calls of the replacement are awaited one by one.  In a
    flagged run the calls are the classifier's followed by delete,
    temporary directory, download, upload and unlink, each made only once
    the one before it resolved: the first call that is rejected is the
    last one made, its error is what the handler rethrows, and the bucket
    and the disk are left as that call left them. *)
Theorem flagged_calls_follow_the_steps (k : pipeline) (sv : services)
    (obj : ObjectMetadata) (filePath : string) (w : world) :
  passes_guard k obj filePath →
  verdict sv k (gs_uri obj filePath) = Returned true →
  calls (trace (run sv (trigger path params k obj) w)) =
    (detect sv k (gs_uri obj filePath)).1 ++
    (await_each sv (replacement_steps path k filePath) w).1.1 ∧
  ending (run sv (trigger path params k obj) w) =
    match (await_each sv (replacement_steps path k filePath) w).1.2 with
    | Some e => Thrown e
    | None => Returned null
    end ∧
  final (run sv (trigger path params k obj) w) =
    (await_each sv (replacement_steps path k filePath) w).2.
Proof.
  intros Hg Hv. rewrite (run_trigger path params sv k obj filePath w Hg).
  pose proof (detect_footprint sv k (gs_uri obj filePath)) as Hq.
  destruct (replacement_awaits sv k filePath w) as (Hcalls & Hend & Hfinal).
  unfold verdict in Hv.
  destruct (detect sv k (gs_uri obj filePath)) as [tr0 o]. cbn in Hv, Hq. subst o.
  destruct (await_each sv (replacement_steps path k filePath) w) as [[tra ea] wa].
  destruct (run sv (replacement path k filePath) w) as [[tr1 [[] | e]] w1];
    unfold trace, ending, final in *; cbn in Hcalls, Hend, Hfinal |- *;
    destruct ea as [e'|]; simplify_eq;
    by rewrite !calls_app, (calls_classifier _ Hq), app_nil_r.
Qed.

(** ** When the replacement fails or is replayed *)

Lemma replacement_thrown (sv : services) (k : pipeline) (filePath : string)
    (w w' : world) (tr : list request) (e : error) :
  run sv (replacement path k filePath) w = (tr, Thrown e, w') →
  w' = w ∨
  (objects w' = delete filePath (objects w) ∧ is_Some (objects w !! filePath)) ∨
  (∃ b, filePath ≠ placeholder k ∧
        objects w !! placeholder k = Some b ∧
        objects w' = <[filePath := b]> (objects w) ∧
        files w' !! tempFilePath path filePath = Some b).
Proof.
  unfold run, replacement, tempFilePath.
  settle; intros [= <- <- <-]; cbn in *;
    try match goal with H : delete _ _ !! _ = Some _ |- _ =>
          apply lookup_delete_Some in H as [Hne Hph] end;
    try (rewrite lookup_insert_eq in *; simplify_eq);
    first [ by left
          | right; left; split; [done | by eexists]
          | right; right; eexists; split; [exact Hne|]; split; [exact Hph|];
            split; [by rewrite insert_delete_eq | done] ].
Qed.

(** The replacement is not atomic.  A flagged run that throws leaves the
    storage in one of three states: untouched (the delete was refused);
    with the object at the event path gone and nothing in its place (a
    step between the delete and the upload failed); or with the
    placeholder in place and its copy still in the temporary directory
    (the unlink failed). *)
Theorem flagged_failure_modes (k : pipeline) (sv : services) (obj : ObjectMetadata)
    (filePath : string) (w : world) (e : error) :
  passes_guard k obj filePath →
  verdict sv k (gs_uri obj filePath) = Returned true →
  ending (run sv (trigger path params k obj) w) = Thrown e →
  final (run sv (trigger path params k obj) w) = w ∨
  (objects (final (run sv (trigger path params k obj) w)) = delete filePath (objects w) ∧
   is_Some (objects w !! filePath)) ∨
  (∃ b, objects w !! placeholder k = Some b ∧
        objects (final (run sv (trigger path params k obj) w)) =
          <[filePath := b]> (objects w) ∧
        files (final (run sv (trigger path params k obj) w))
          !! tempFilePath path filePath = Some b).
Proof.
  intros Hg Hv. rewrite (run_trigger path params sv k obj filePath w Hg).
  unfold verdict in Hv.
  destruct (detect sv k (gs_uri obj filePath)) as [tr0 o]. cbn in Hv. subst o.
  destruct (run sv (replacement path k filePath) w) as [[tr1 [[] | e1]] w1] eqn:E;
    cbn; [discriminate|]. intros _.
  apply replacement_thrown in E as [-> | [H | (b & _ & H)]]; eauto.
Qed.

Lemma replacement_returns (sv : services) (k : pipeline) (filePath : string)
    (w w' : world) (tr : list request) :
  run sv (replacement path k filePath) w = (tr, Returned tt, w') →
  filePath ≠ placeholder k ∧
  ∃ b, objects w !! placeholder k = Some b ∧
       objects w' = <[filePath := b]> (objects w) ∧
       files w' = delete (tempFilePath path filePath) (files w).
Proof.
  unfold run, replacement, tempFilePath.
  settle; intros [= <- <-]. cbn in *.
  match goal with H : delete _ _ !! _ = Some _ |- _ =>
    apply lookup_delete_Some in H as [Hne Hph] end.
  rewrite lookup_insert_eq in *. simplify_eq.
  split; [done|]. eexists. split; [done|].
  by rewrite insert_delete_eq, delete_insert_eq.
Qed.

(** A handler cannot replace its own placeholder: when the event path
    is the placeholder's and the detection flags it, the run always
    throws, and unless the delete itself was refused the bucket is left
    without the placeholder. *)
Theorem flagged_placeholder_always_throws (k : pipeline) (sv : services)
    (obj : ObjectMetadata) (w : world) :
  passes_guard k obj (placeholder k) →
  verdict sv k (gs_uri obj (placeholder k)) = Returned true →
  (∃ e, ending (run sv (trigger path params k obj) w) = Thrown e) ∧
  (final (run sv (trigger path params k obj) w) = w ∨
   objects (final (run sv (trigger path params k obj) w)) !! placeholder k = None).
Proof.
  intros Hg Hv. rewrite (run_trigger path params sv k obj _ w Hg).
  unfold verdict in Hv.
  destruct (detect sv k (gs_uri obj (placeholder k))) as [tr0 o]. cbn in Hv. subst o.
  destruct (run sv (replacement path k (placeholder k)) w) as [[tr1 [[] | e1]] w1] eqn:E;
    cbn.
  - by apply replacement_returns in E as [Hne _].
  - split; [by exists e1|].
    apply replacement_thrown in E as [-> | [[-> _] | (b & Hne & _)]].
    + by left.
    + right. apply lookup_delete_eq.
    + done.
Qed.

(** When the replacement returns: no outage on its five calls, an object
    at the event path, a placeholder in the bucket, and an event path
    that is not the placeholder's. *)
Lemma replacement_returns_iff (sv : services) (k : pipeline) (filePath : string)
    (w : world) :
  ending (run sv (replacement path k filePath) w) = Returned tt ↔
  Forall (λ r, outage sv r = None) (replacement_steps path k filePath) ∧
  is_Some (objects w !! filePath) ∧
  is_Some (objects w !! placeholder k) ∧
  filePath ≠ placeholder k.
Proof.
  unfold replacement_steps, tempFilePath. rewrite !Forall_cons.
  split.
  - unfold run, replacement.
    settle; intros [=]; cbn in *.
    match goal with H : delete _ _ !! _ = Some _ |- _ =>
      apply lookup_delete_Some in H as [Hne Hph] end.
    repeat split; eauto.
  - intros ((H1 & H2 & H3 & H4 & H5 & _) & [b0 Hb0] & [b Hb] & Hne).
    unfold run, replacement.
    settle; try congruence; cbn in *;
      repeat match goal with
        | H : delete _ _ !! _ = None |- _ => rewrite lookup_delete_ne in H by done
        | H : <[_:=_]> _ !! _ = None |- _ => rewrite lookup_insert_eq in H
        end;
      congruence.
Qed.

(** Replaying a flagged event whose first run returned: the second run,
    against the same services, returns as well and leaves the bucket and
    the disk as the first run left them. *)
Theorem replay_is_idempotent (k : pipeline) (sv : services) (obj : ObjectMetadata)
    (filePath : string) (w : world) :
  passes_guard k obj filePath →
  verdict sv k (gs_uri obj filePath) = Returned true →
  ending (run sv (trigger path params k obj) w) = Returned null →
  ending (run sv (trigger path params k obj)
            (final (run sv (trigger path params k obj) w))) = Returned null ∧
  final (run sv (trigger path params k obj)
           (final (run sv (trigger path params k obj) w))) =
    final (run sv (trigger path params k obj) w).
Proof.
  intros Hg Hv. rewrite !(run_trigger path params sv k obj filePath _ Hg).
  unfold verdict in Hv.
  destruct (detect sv k (gs_uri obj filePath)) as [tr0 o]. cbn in Hv. subst o.
  destruct (run sv (replacement path k filePath) w) as [[tr1 [[] | e1]] w1] eqn:E1;
    cbn -[run replacement]; [intros _ | discriminate].
  assert (ending (run sv (replacement path k filePath) w) = Returned tt) as Hok
    by (by rewrite E1).
  apply replacement_returns_iff in Hok as (Hout & _ & _ & _).
  apply replacement_returns in E1 as (Hne & b & Hb & Hobj & Hfiles).
  assert (ending (run sv (replacement path k filePath) w1) = Returned tt) as Hok2.
  { apply replacement_returns_iff.
    split; [exact Hout|]. split; [|split; [|exact Hne]].
    - rewrite Hobj, lookup_insert_eq. by eexists.
    - rewrite Hobj, lookup_insert_ne by done. by eexists. }
  destruct (run sv (replacement path k filePath) w1) as [[tr2 [[] | e2]] w2] eqn:E2;
    cbn -[run replacement] in Hok2 |- *; [|discriminate].
  split; [done|].
  apply replacement_returns in E2 as (_ & b' & Hb' & Hobj' & Hfiles').
  rewrite Hobj, lookup_insert_ne in Hb' by done. simplify_eq.
  destruct w1 as [o1 f1], w2 as [o2 f2]. cbn in *. subst.
  by rewrite insert_insert_eq, delete_delete_eq.
Qed.

(** A flagged run returns exactly when none of the five calls of the
    replacement meets an outage, the bucket holds an object at the event
    path and a placeholder, and the event path is not the
    placeholder's. *)
Theorem flagged_run_returns_iff (k : pipeline) (sv : services) (obj : ObjectMetadata)
    (filePath : string) (w : world) :
  passes_guard k obj filePath →
  verdict sv k (gs_uri obj filePath) = Returned true →
  ending (run sv (trigger path params k obj) w) = Returned null ↔
  Forall (λ r, outage sv r = None) (replacement_steps path k filePath) ∧
  is_Some (objects w !! filePath) ∧
  is_Some (objects w !! placeholder k) ∧
  filePath ≠ placeholder k.
Proof.
  intros Hg Hv. rewrite <- replacement_returns_iff.
  rewrite (run_trigger path params sv k obj filePath w Hg).
  unfold verdict in Hv.
  destruct (detect sv k (gs_uri obj filePath)) as [tr0 o]. cbn in Hv. subst o.
  by destruct (run sv (replacement path k filePath) w) as [[tr1 [[] | e1]] w1].
Qed.

End MoreHandlers.

(** ** The further properties at sample inputs *)

Lemma verdict_is_last_frame_of_first_result_witness :
  videoVerdict
    {| annotationResults :=
         Some [{| explicitAnnotation := Some {| frames := Some (Sample.frames_of [5; 2]) |} |};
               {| explicitAnnotation := Some {| frames := Some (Sample.frames_of [5]) |} |}] |} =
  Returned (frameVerdict {| pornographyLikelihood := Some 2 |}).
Proof.
  apply (verdict_is_last_frame_of_first_result _ _ (Sample.frames_of [5])). reflexivity.
Defined.

Lemma other_objects_untouched_witness :
  let sv := Sample.services_of (Sample.image_levels "LIKELY" "UNKNOWN")
              (response_of_frames []) Sample.upload_down in
  objects (final (run sv (trigger Posix.module Sample.params Images Sample.image_event)
                    Sample.uploaded)) !! "publishes/st/1/clip.mp4"%string =
  objects Sample.uploaded !! "publishes/st/1/clip.mp4"%string.
Proof.
  cbn zeta. apply other_objects_untouched. intros H. discriminate H.
Defined.

Lemma other_files_untouched_witness :
  let sv := Sample.services_of (Sample.image_levels "LIKELY" "UNKNOWN")
              (response_of_frames []) Sample.upload_down in
  files (final (run sv (trigger Posix.module Sample.params Images Sample.image_event)
                  Sample.uploaded)) !! "/tmp/publishes/st/1/clip.mp4"%string =
  files Sample.uploaded !! "/tmp/publishes/st/1/clip.mp4"%string.
Proof.
  cbn zeta. apply other_files_untouched.
  intros filePath [= <-]. vm_compute. discriminate.
Defined.

Lemma pipelines_are_disjoint_witness :
  ∃ line,
    run (Sample.services_of (Sample.image_levels "LIKELY" "LIKELY")
           (response_of_frames (Sample.frames_of [5])) Sample.no_outage)
        (trigger Posix.module Sample.params Videos Sample.image_event) Sample.uploaded =
    ([Log [line]], Returned null, Sample.uploaded).
Proof.
  apply (pipelines_are_disjoint Posix.module Sample.params Images Videos _ _
           "publishes/st/1/cat.png").
  - discriminate.
  - split; reflexivity.
Defined.

Lemma detection_failure_is_rethrown_witness :
  let sv := Sample.services_of (Sample.image_levels "UNKNOWN" "UNKNOWN")
              {| annotationResults := Some [] |} Sample.no_outage in
  let e := TypeError "Cannot read properties of undefined (reading 'explicitAnnotation')" in
  run sv (trigger Posix.module Sample.params Videos Sample.video_event) Sample.uploaded =
    ((detect sv Videos (gs_uri Sample.video_event "publishes/st/1/clip.mp4")).1
       ++ [LogError e], Thrown e, Sample.uploaded).
Proof.
  cbn zeta. apply detection_failure_is_rethrown.
  - split; reflexivity.
  - reflexivity.
Defined.

Lemma storage_changes_only_when_flagged_witness :
  let sv := Sample.services_of {| safeSearchAnnotation := None |}
              (response_of_frames []) Sample.no_outage in
  let r := run sv (trigger Posix.module Sample.params Images Sample.image_event)
             Sample.uploaded in
  Forall (λ c, touches_storage c = false) (trace r) ∧ final r = Sample.uploaded.
Proof.
  cbn zeta. apply (storage_changes_only_when_flagged _ _ _ _ _ "publishes/st/1/cat.png").
  - split; reflexivity.
  - vm_compute. discriminate.
Defined.

Lemma unflagged_video_endings_witness :
  let sv := Sample.services_of (Sample.image_levels "UNKNOWN" "UNKNOWN")
              (response_of_frames (Sample.frames_of [1; 2])) Sample.no_outage in
  let r := run sv (transcodeVideo Posix.module Sample.params Sample.video_event)
             Sample.uploaded in
  ending r =
    match signedUrl sv "publishes/st/1/clip.mp4" "read" (clock sv + 3600000) with
    | Rejected e => Thrown e
    | Resolved downloadURL =>
        match streamCopy sv (copy_request Posix.module Sample.params
                               "publishes/st/1/clip.mp4" downloadURL) with
        | Resolved _ => Returned null
        | Rejected e => Thrown e
        end
    end ∧
  existsb is_axios (trace r) =
    match signedUrl sv "publishes/st/1/clip.mp4" "read" (clock sv + 3600000) with
    | Rejected _ => false
    | Resolved _ => true
    end.
Proof.
  cbn zeta. apply unflagged_video_endings.
  - split; reflexivity.
  - reflexivity.
Defined.

Lemma flagged_calls_follow_the_steps_witness :
  let sv := Sample.services_of (Sample.image_levels "LIKELY" "UNKNOWN")
              (response_of_frames []) Sample.upload_down in
  let r := run sv (trigger Posix.module Sample.params Images Sample.image_event)
             Sample.uploaded in
  let awaited := await_each sv (replacement_steps Posix.module Images "publishes/st/1/cat.png")
                   Sample.uploaded in
  calls (trace r) =
    (detect sv Images (gs_uri Sample.image_event "publishes/st/1/cat.png")).1 ++ awaited.1.1 ∧
  ending r = match awaited.1.2 with Some e => Thrown e | None => Returned null end ∧
  final r = awaited.2.
Proof.
  cbn zeta. apply flagged_calls_follow_the_steps.
  - split; reflexivity.
  - reflexivity.
Defined.

Example awaited_steps_stop_at_refusal :
  let sv := Sample.services_of (Sample.image_levels "LIKELY" "UNKNOWN")
              (response_of_frames []) Sample.upload_down in
  (await_each sv (replacement_steps Posix.module Images "publishes/st/1/cat.png")
     Sample.uploaded).1 =
  ([FileDelete "publishes/st/1/cat.png";
    Mkdirp "/tmp/publishes/st/1";
    FileDownload "prohibited.png" "/tmp/publishes/st/1/cat.png";
    BucketUpload "/tmp/publishes/st/1/cat.png" "publishes/st/1/cat.png" true]%string,
   Some (ApiError 503 "Service Unavailable")).
Proof. vm_compute. reflexivity. Qed.

Lemma flagged_failure_modes_witness :
  let sv := Sample.services_of (Sample.image_levels "LIKELY" "UNKNOWN")
              (response_of_frames []) Sample.upload_down in
  let r := run sv (trigger Posix.module Sample.params Images Sample.image_event)
             Sample.uploaded in
  final r = Sample.uploaded ∨
  (objects (final r) = delete "publishes/st/1/cat.png"%string (objects Sample.uploaded) ∧
   is_Some (objects Sample.uploaded !! "publishes/st/1/cat.png"%string)) ∨
  (∃ b, objects Sample.uploaded !! placeholder Images = Some b ∧
        objects (final r) = <["publishes/st/1/cat.png"%string := b]> (objects Sample.uploaded) ∧
        files (final r) !! tempFilePath Posix.module "publishes/st/1/cat.png" = Some b).
Proof.
  cbn zeta.
  apply (flagged_failure_modes _ _ _ _ _ _ _ (ApiError 503 "Service Unavailable")).
  - split; reflexivity.
  - reflexivity.
  - vm_compute. reflexivity.
Defined.

Lemma flagged_placeholder_always_throws_witness :
  let sv := Sample.services_of (Sample.image_levels "LIKELY" "UNKNOWN")
              (response_of_frames []) Sample.no_outage in
  let r := run sv (trigger Posix.module Sample.params Images Sample.placeholder_event)
             Sample.uploaded in
  (∃ e, ending r = Thrown e) ∧
  (final r = Sample.uploaded ∨ objects (final r) !! placeholder Images = None).
Proof.
  cbn zeta. apply flagged_placeholder_always_throws.
  - split; reflexivity.
  - reflexivity.
Defined.

Lemma flagged_run_returns_iff_witness :
  let sv := Sample.services_of (Sample.image_levels "LIKELY" "UNKNOWN")
              (response_of_frames []) Sample.no_outage in
  ending (run sv (trigger Posix.module Sample.params Images Sample.image_event)
            Sample.uploaded) = Returned null ↔
  Forall (λ r, outage sv r = None)
    (replacement_steps Posix.module Images "publishes/st/1/cat.png") ∧
  is_Some (objects Sample.uploaded !! "publishes/st/1/cat.png"%string) ∧
  is_Some (objects Sample.uploaded !! placeholder Images) ∧
  "publishes/st/1/cat.png"%string ≠ placeholder Images.
Proof.
  cbn zeta. apply flagged_run_returns_iff.
  - split; reflexivity.
  - reflexivity.
Defined.

Lemma replay_is_idempotent_witness :
  let sv := Sample.services_of (Sample.image_levels "UNKNOWN" "UNKNOWN")
              (response_of_frames (Sample.frames_of [2; 4])) Sample.no_outage in
  let once := run sv (trigger Posix.module Sample.params Videos Sample.video_event)
                Sample.uploaded in
  let twice := run sv (trigger Posix.module Sample.params Videos Sample.video_event)
                 (final once) in
  ending twice = Returned null ∧ final twice = final once.
Proof.
  cbn zeta. apply (replay_is_idempotent _ _ _ _ _ "publishes/st/1/clip.mp4").
  - split; reflexivity.
  - reflexivity.
  - vm_compute. reflexivity.
Defined.
